(** * STOCKWIZ: the stock-metrics retrieval and cache path of [index.js]

    The development embeds [getStockMetrics] (index.js, lines 144-217) and
    the two route handlers that call it (lines 221-261) as state-passing
    functions, together with the pieces of the JavaScript runtime that the
    function relies on: strings as sequences of UTF-16 code units,
    [String.prototype.trim], the regular expression [/\{[\s\S]*\}/],
    [JSON.parse], [ToBoolean], [typeof] and [Number(...)].

    State.  The process is a [World]: the [stockCache] map, the clock, the
    prompts sent to the model and the number of results drawn from
    [Math.random()].  What the model replies, how long it takes and what
    [Math.random()] returns are given by an environment [Env].  A call of
    [getStockMetrics] is followed from its start to its end on its own: no
    other request is interleaved while it awaits the model.  What the
    program writes to the console is left out.

    Numbers.  A JavaScript number is an IEEE-754 double.  Here a number is
    [NaN], an infinity or an exact rational: rounding, overflow to an
    infinity, underflow to zero and the sign of zero are not represented.
    Every statement below about a range is stated with closed bounds, which
    is what survives rounding: [placeholder64_extremes] evaluates the
    placeholders in binary64 at the two extreme draws. *)

From Stdlib Require Import ZArith QArith Lia Lqa List Ascii String Bool Floats.
From stdpp Require Import gmap list.

Set Warnings "-register-all".
Local Open Scope N_scope.

(** ** Strings *)

(** A string is the list of its UTF-16 code units. *)
Abbreviation jsstring := (list N).

Definition ch (a : ascii) : N := N_of_ascii a.
Arguments ch a%_char.

(** [str "abc"] is the JavaScript string with the same (one byte) characters. *)
Definition str (s : string) : jsstring := map N_of_ascii (list_ascii_of_string s).
Arguments str s%_string.

(** [js "{'a':1}"] writes a text that contains double quotes: every
    apostrophe of the argument stands for a double quote (code unit 34). *)
Definition js (s : string) : jsstring :=
  map (fun c => if c =? 39 then 34 else c) (str s).
Arguments js s%_string.

(** WhiteSpace and LineTerminator code points (ECMA-262, 12.2 and 12.3),
    the set that [trim] and [Number] strip. *)
Definition isWhiteSpace (c : N) : bool :=
  (c =? 9) || (c =? 10) || (c =? 11) || (c =? 12) || (c =? 13) || (c =? 32)
  || (c =? 160) || (c =? 5760) || ((8192 <=? c) && (c <=? 8202))
  || (c =? 8232) || (c =? 8233) || (c =? 8239) || (c =? 8287)
  || (c =? 12288) || (c =? 65279).

Fixpoint trimStart (s : jsstring) : jsstring :=
  match s with
  | [] => []
  | c :: r => if isWhiteSpace c then trimStart r else s
  end.

Definition trimEnd (s : jsstring) : jsstring := rev (trimStart (rev s)).

(** [text.trim()] *)
Definition trim (s : jsstring) : jsstring := trimEnd (trimStart s).

(** ASCII letters only; for other code units JavaScript consults the
    Unicode case tables, which are not reproduced: they are left as they
    are. *)
Definition toUpperCase (s : jsstring) : jsstring :=
  map (fun c => if (97 <=? c) && (c <=? 122) then c - 32 else c) s.

(** ** The regular expression [/\{[\s\S]*\}/] *)

(** The suffix of [s] that starts at the first occurrence of [c]. *)
Fixpoint fromFirst (c : N) (s : jsstring) : option jsstring :=
  match s with
  | [] => None
  | x :: r => if x =? c then Some s else fromFirst c r
  end.

(** The longest prefix of [s] that ends with [c]. *)
Fixpoint throughLast (c : N) (s : jsstring) : option jsstring :=
  match s with
  | [] => None
  | x :: r =>
      match throughLast c r with
      | Some p => Some (x :: p)
      | None => if x =? c then Some [x] else None
      end
  end.

(** [text.match(/\{[\s\S]*\}/)]: the match starts at the leftmost brace
    that has a closing brace after it and, the star being greedy, runs to
    the last closing brace of the text.  [Some m] is [jsonMatch[0]], [None]
    is the [null] of a failed match. *)
Definition match_braces (text : jsstring) : option jsstring :=
  match fromFirst (ch "{") text with
  | Some (open :: rest) =>
      match throughLast (ch "}") rest with
      | Some body => Some (open :: body)
      | None => None
      end
  | _ => None
  end.

(** ** Numbers *)

Inductive number :=
| NaN
| Inf (negative : bool)
| Num (q : Q).

Definition isZero (q : Q) : bool := (Qnum q =? 0)%Z.

Definition num_mul (a b : number) : number :=
  match a, b with
  | NaN, _ | _, NaN => NaN
  | Inf s, Inf t => Inf (xorb s t)
  | Inf s, Num q | Num q, Inf s =>
      if isZero q then NaN else Inf (xorb s (Qnum q <? 0)%Z)
  | Num p, Num q => Num (p * q)
  end.

Definition num_add (a b : number) : number :=
  match a, b with
  | NaN, _ | _, NaN => NaN
  | Inf s, Inf t => if eqb s t then Inf s else NaN
  | Inf s, Num _ | Num _, Inf s => Inf s
  | Num p, Num q => Num (p + q)
  end.

Declare Scope number_scope.
Delimit Scope number_scope with num.
Bind Scope number_scope with number.
Infix "*" := num_mul : number_scope.
Infix "+" := num_add : number_scope.

(** ** Values *)

(** The values [JSON.parse] produces, and [undefined], which reading a
    missing property produces.  An object is the list of its own properties
    in creation order, without duplicate keys. *)
Inductive value :=
| VUndefined
| VNull
| VBool (b : bool)
| VNum (n : number)
| VStr (s : jsstring)
| VArr (elems : list value)
| VObj (props : list (jsstring * value)).

Definition jsstring_eqb (a b : jsstring) : bool := bool_decide (a = b).

Fixpoint lookupProp (k : jsstring) (props : list (jsstring * value)) : option value :=
  match props with
  | [] => None
  | (k', v) :: r => if jsstring_eqb k' k then Some v else lookupProp k r
  end.

(** CreateDataProperty: a repeated key keeps its place and takes the new
    value. *)
Fixpoint defineProp (k : jsstring) (v : value) (props : list (jsstring * value))
  : list (jsstring * value) :=
  match props with
  | [] => [(k, v)]
  | (k', v') :: r =>
      if jsstring_eqb k' k then (k', v) :: r else (k', v') :: defineProp k v r
  end.

(** [o.k] for a property name [k] that neither [Object.prototype] nor
    [Array.prototype] defines and that is not an array index or [length]:
    the own property of an object, and [undefined] otherwise.  Every name
    [getStockMetrics] reads is of that kind.  (Reading a property of
    [undefined] or [null] throws; the function never does so.) *)
Definition Get (o : value) (k : jsstring) : value :=
  match o with
  | VObj props => default VUndefined (lookupProp k props)
  | _ => VUndefined
  end.

Inductive jstype := TUndefined | TObject | TBoolean | TNumber | TString.

Definition typeof (v : value) : jstype :=
  match v with
  | VUndefined => TUndefined
  | VNull => TObject
  | VBool _ => TBoolean
  | VNum _ => TNumber
  | VStr _ => TString
  | VArr _ => TObject
  | VObj _ => TObject
  end.

Definition jstype_eqb (a b : jstype) : bool :=
  match a, b with
  | TUndefined, TUndefined | TObject, TObject | TBoolean, TBoolean
  | TNumber, TNumber | TString, TString => true
  | _, _ => false
  end.

Definition truthyNumber (n : number) : bool :=
  match n with
  | NaN => false
  | Inf _ => true
  | Num q => negb (isZero q)
  end.

(** ToBoolean (ECMA-262, 7.1.2). *)
Definition ToBoolean (v : value) : bool :=
  match v with
  | VUndefined | VNull => false
  | VBool b => b
  | VNum n => truthyNumber n
  | VStr s => negb (length s =? 0)%nat
  | VArr _ | VObj _ => true
  end.

(** [a || b] *)
Definition js_or (a b : value) : value := if ToBoolean a then a else b.

(** ** Numeric literals *)

Definition isDigit (c : N) : bool := (48 <=? c) && (c <=? 57).

(** The value of a digit of base up to 16, if [c] is one. *)
Definition digitValue (c : N) : option N :=
  if (48 <=? c) && (c <=? 57) then Some (c - 48)
  else if (97 <=? c) && (c <=? 102) then Some (c - 87)
  else if (65 <=? c) && (c <=? 70) then Some (c - 55)
  else None.

(** The longest prefix of decimal digits, and what follows it. *)
Fixpoint spanDigits (s : jsstring) : jsstring * jsstring :=
  match s with
  | c :: r =>
      if isDigit c then let (d, r') := spanDigits r in (c :: d, r') else ([], s)
  | [] => ([], [])
  end.

(** The integer that the digits [ds] write in base [base]; [None] when one
    of them is not a digit of that base. *)
Fixpoint digitsValue (base : N) (acc : N) (ds : jsstring) : option N :=
  match ds with
  | [] => Some acc
  | c :: r =>
      match digitValue c with
      | Some d => if d <? base then digitsValue base (base * acc + d) r else None
      | None => None
      end
  end.

Definition decimalValue (ds : jsstring) : Z :=
  Z.of_N (default 0 (digitsValue 10 0 ds)).

(** [mantissa * 10 ^ exponent] *)
Definition scientific (mantissa exponent : Z) : Q :=
  (inject_Z mantissa * Qpower (10 # 1) exponent)%Q.

(** An optional exponent part [e], [e+] or [e-] followed by digits:
    its value and the rest of the text; [None] when an exponent mark is not
    followed by digits. *)
Definition exponentPart (s : jsstring) : option (Z * jsstring) :=
  match s with
  | c :: r =>
      if (c =? ch "e") || (c =? ch "E") then
        let '(negative, r1) :=
          match r with
          | sg :: r' =>
              if sg =? ch "-" then (true, r')
              else if sg =? ch "+" then (false, r') else (false, r)
          | [] => (false, r)
          end in
        match spanDigits r1 with
        | ([], _) => None
        | (ds, rest) =>
            Some (if negative then (- decimalValue ds)%Z else decimalValue ds, rest)
        end
      else Some (0%Z, s)
  | [] => Some (0%Z, s)
  end.

(** StringToNumber (ECMA-262, 7.1.4.1.1) on a trimmed, non-empty text:
    a StrDecimalLiteral with an optional sign, or an unsigned binary, octal
    or hexadecimal integer literal; everything else is [NaN]. *)
Definition strDecimalLiteral (s : jsstring) : number :=
  let '(negative, s1) :=
    match s with
    | sg :: r =>
        if sg =? ch "-" then (true, r)
        else if sg =? ch "+" then (false, r) else (false, s)
    | [] => (false, s)
    end in
  if jsstring_eqb s1 (str "Infinity") then Inf negative
  else
    let '(ip, s2) := spanDigits s1 in
    let '(fp, s3) :=
      match s2 with
      | c :: r => if c =? ch "." then spanDigits r else ([], s2)
      | [] => ([], s2)
      end in
    match ip ++ fp with
    | [] => NaN
    | ds =>
        match exponentPart s3 with
        | Some (e, []) =>
            let m := decimalValue ds in
            Num (scientific (if negative then (- m)%Z else m)
                            (e - Z.of_nat (length fp)))
        | _ => NaN
        end
    end.

Definition nonDecimalLiteral (s : jsstring) : option number :=
  match s with
  | z :: x :: (d :: _) as ds =>
      if z =? ch "0" then
        let base :=
          if (x =? ch "x") || (x =? ch "X") then Some 16
          else if (x =? ch "o") || (x =? ch "O") then Some 8
          else if (x =? ch "b") || (x =? ch "B") then Some 2
          else None in
        match base with
        | Some b =>
            Some match digitsValue b 0 ds with
                 | Some n => Num (inject_Z (Z.of_N n))
                 | None => NaN
                 end
        | None => None
        end
      else None
  | _ => None
  end.

Definition StringToNumber (s : jsstring) : number :=
  match trim s with
  | [] => Num 0
  | t => default (strDecimalLiteral t) (nonDecimalLiteral t)
  end.

(** ** [JSON.parse] *)

(** JSON white space: space, tab, line feed, carriage return. *)
Definition isJsonSpace (c : N) : bool :=
  (c =? 32) || (c =? 9) || (c =? 10) || (c =? 13).

Fixpoint skipSpace (s : jsstring) : jsstring :=
  match s with
  | c :: r => if isJsonSpace c then skipSpace r else s
  | [] => []
  end.

Definition hex4 (a b c d : N) : option N :=
  digitsValue 16 0 [a; b; c; d].

(** The characters of a string literal after its opening quote, up to the
    closing quote, with the escapes decoded; a raw control character and an
    unknown escape are errors. *)
Fixpoint parseChars (s : jsstring) : option (jsstring * jsstring) :=
  match s with
  | [] => None
  | c :: r =>
      if c =? 34 then Some ([], r)
      else if c <? 32 then None
      else if c =? 92 then
        match r with
        | e :: r1 =>
            let simple (u : N) :=
              match parseChars r1 with
              | Some (cs, rest) => Some (u :: cs, rest)
              | None => None
              end in
            if e =? 34 then simple 34
            else if e =? 92 then simple 92
            else if e =? ch "/" then simple (ch "/")
            else if e =? ch "b" then simple 8
            else if e =? ch "f" then simple 12
            else if e =? ch "n" then simple 10
            else if e =? ch "r" then simple 13
            else if e =? ch "t" then simple 9
            else if e =? ch "u" then
              match r1 with
              | h1 :: h2 :: h3 :: h4 :: r2 =>
                  match hex4 h1 h2 h3 h4, parseChars r2 with
                  | Some u, Some (cs, rest) => Some (u :: cs, rest)
                  | _, _ => None
                  end
              | _ => None
              end
            else None
        | [] => None
        end
      else
        match parseChars r with
        | Some (cs, rest) => Some (c :: cs, rest)
        | None => None
        end
  end.

(** A JSON number: an optional minus sign; an integer part that is a
    single zero or starts with a digit from 1 to 9; optionally a point
    followed by digits; optionally an exponent. *)
Definition parseNumber (s : jsstring) : option (number * jsstring) :=
  let '(negative, s1) :=
    match s with
    | sg :: r => if sg =? ch "-" then (true, r) else (false, s)
    | [] => (false, s)
    end in
  let '(ip, s2) :=
    match s1 with
    | c :: r => if c =? ch "0" then ([c], r) else spanDigits s1
    | [] => ([], s1)
    end in
  match ip with
  | [] => None
  | _ =>
      let frac :=
        match s2 with
        | c :: r =>
            if c =? ch "." then
              match spanDigits r with
              | ([], _) => None
              | (fp, s3) => Some (fp, s3)
              end
            else Some ([], s2)
        | [] => Some ([], s2)
        end in
      match frac with
      | Some (fp, s3) =>
          match exponentPart s3 with
          | Some (e, rest) =>
              let m := decimalValue (ip ++ fp) in
              Some (Num (scientific (if negative then (- m)%Z else m)
                                    (e - Z.of_nat (length fp))), rest)
          | None => None
          end
      | None => None
      end
  end.

(** [stripPrefix p s] is what follows [p] in [s], when [s] starts with [p]. *)
Fixpoint stripPrefix (p s : jsstring) : option jsstring :=
  match p, s with
  | [], _ => Some s
  | a :: p', b :: s' => if a =? b then stripPrefix p' s' else None
  | _ :: _, [] => None
  end.

(** Recursive descent.  [parseValue] reads one value and returns it with
    the rest of the text; [parseElements] reads the elements of an array
    after the bracket or a comma, [parseMembers] the members of an object
    after the brace or a comma.  Each call uses one unit of [fuel]; a value
    is entered after at most two calls per character read. *)
Fixpoint parseValue (fuel : nat) (s : jsstring) {struct fuel}
  : option (value * jsstring) :=
  match fuel with
  | O => None
  | S fuel' =>
      match skipSpace s with
      | [] => None
      | c :: r =>
          if c =? ch "{" then
            match skipSpace r with
            | c' :: r' =>
                if c' =? ch "}" then Some (VObj [], r')
                else parseMembers fuel' [] r
            | [] => None
            end
          else if c =? ch "[" then
            match skipSpace r with
            | c' :: r' =>
                if c' =? ch "]" then Some (VArr [], r')
                else parseElements fuel' [] r
            | [] => None
            end
          else if c =? 34 then
            match parseChars r with
            | Some (cs, rest) => Some (VStr cs, rest)
            | None => None
            end
          else
            match stripPrefix (str "true") (c :: r),
                  stripPrefix (str "false") (c :: r),
                  stripPrefix (str "null") (c :: r) with
            | Some rest, _, _ => Some (VBool true, rest)
            | _, Some rest, _ => Some (VBool false, rest)
            | _, _, Some rest => Some (VNull, rest)
            | None, None, None =>
                match parseNumber (c :: r) with
                | Some (n, rest) => Some (VNum n, rest)
                | None => None
                end
            end
      end
  end
with parseElements (fuel : nat) (acc : list value) (s : jsstring) {struct fuel}
  : option (value * jsstring) :=
  match fuel with
  | O => None
  | S fuel' =>
      match parseValue fuel' s with
      | Some (v, r) =>
          match skipSpace r with
          | c :: r' =>
              if c =? ch "," then parseElements fuel' (acc ++ [v]) r'
              else if c =? ch "]" then Some (VArr (acc ++ [v]), r')
              else None
          | [] => None
          end
      | None => None
      end
  end
with parseMembers (fuel : nat) (acc : list (jsstring * value)) (s : jsstring)
  {struct fuel} : option (value * jsstring) :=
  match fuel with
  | O => None
  | S fuel' =>
      match skipSpace s with
      | q :: r0 =>
          if q =? 34 then
            match parseChars r0 with
            | Some (k, r1) =>
                match skipSpace r1 with
                | colon :: r2 =>
                    if colon =? ch ":" then
                      match parseValue fuel' r2 with
                      | Some (v, r3) =>
                          match skipSpace r3 with
                          | c :: r4 =>
                              if c =? ch "," then
                                parseMembers fuel' (defineProp k v acc) r4
                              else if c =? ch "}" then
                                Some (VObj (defineProp k v acc), r4)
                              else None
                          | [] => None
                          end
                      | None => None
                      end
                    else None
                | [] => None
                end
            | None => None
            end
          else None
      | [] => None
      end
  end.

(** [JSON.parse(text)]: one value, with nothing but white space after it.
    [None] is the [SyntaxError]. *)
Definition JSON_parse_text (text : jsstring) : option value :=
  match parseValue (2 * length text + 2) text with
  | Some (v, rest) =>
      match skipSpace rest with
      | [] => Some v
      | _ :: _ => None
      end
  | None => None
  end.

(** ** [Number(value)] *)

Inductive exn :=
| Error (message : jsstring)
| SyntaxError
| TypeError
| Rejected.

(** The outcome of evaluating an expression: a value, or a thrown
    exception. *)
Inductive completion (A : Type) :=
| Normal (a : A)
| Throw (e : exn).
Arguments Normal {A} a.
Arguments Throw {A} e.

Definition hasOwn (k : jsstring) (props : list (jsstring * value)) : bool :=
  match lookupProp k props with
  | Some _ => true
  | None => false
  end.

(** Whether ToString(v) throws.  An object made by [JSON.parse] inherits
    [toString] and [valueOf] from [Object.prototype] unless it has own
    properties of these names, and an own property holds a JSON value, which
    is not callable.  OrdinaryToPrimitive (ECMA-262, 7.1.1.1) skips a method
    that is not callable and skips the inherited [valueOf], which returns
    the object itself, so it finds a primitive exactly when [toString] is
    the inherited one, and throws a [TypeError] otherwise.  An array is
    converted by [Array.prototype.join], which converts every element other
    than [null] and [undefined]. *)
Fixpoint toStringThrows (v : value) : bool :=
  match v with
  | VObj props => hasOwn (str "toString") props
  | VArr elems => existsb toStringThrows elems
  | _ => false
  end.

(** StringToNumber(ToString(v)), for a [v] whose conversion to a string
    does not throw.  An object reads "[object Object]"; an array is the
    join of its elements with commas, so it is a numeric literal only when
    it has at most one element; a number reads back as itself. *)
Fixpoint numberOfString (v : value) : number :=
  match v with
  | VUndefined | VNull | VBool _ | VObj _ => NaN
  | VNum n => n
  | VStr s => StringToNumber s
  | VArr [] => Num 0
  | VArr [e] =>
      match e with
      | VUndefined | VNull => Num 0
      | _ => numberOfString e
      end
  | VArr (_ :: _ :: _) => NaN
  end.

(** [Number(v)], that is ToNumber (ECMA-262, 7.1.4). *)
Definition Number (v : value) : completion number :=
  match v with
  | VUndefined => Normal NaN
  | VNull => Normal (Num 0)
  | VBool b => Normal (Num (if b then 1 else 0))
  | VNum n => Normal n
  | VStr s => Normal (StringToNumber s)
  | VArr _ | VObj _ =>
      if toStringThrows v then Throw TypeError else Normal (numberOfString v)
  end.

(** ** The state of the process and its environment *)

(** [normalized], the record that [getStockMetrics] builds. *)
Record StockMetrics := {
  stockName : value;
  symbol : value;
  currentPrice : number;
  dayHigh : number;
  dayLow : number;
  peRatio : number;
  roe : number;
  debtToEquity : number;
  profitMargins : number;
  revenueGrowth : number
}.

(** A value of the [stockCache] map: [{ data, timestamp }]. *)
Record CacheEntry := {
  data : StockMetrics;
  timestamp : Z
}.

(** The two prompts the program sends to the model.  The text of a prompt
    is a template filled with these values; only the values are kept. *)
Inductive Prompt :=
| StockPrompt (stockSymbol : jsstring)
| AnalysisPrompt (stockData : StockMetrics) (symbol : jsstring).

(** [stockCache] is the module-level [Map]; [now] is what [Date.now()]
    reads, in milliseconds; [sent] lists the prompts passed to
    [model.generateContent] so far, the latest first; [drawn] counts the
    calls of [Math.random()]. *)
Record World := {
  stockCache : gmap jsstring CacheEntry;
  now : Z;
  sent : list Prompt;
  drawn : nat
}.

(** What one call of [model.generateContent] does: it is rejected, or it
    resolves to a result whose [result?.response?.text?.()] is a string or
    is missing ([None]); a [text()] that throws counts as a rejection. *)
Inductive Reply :=
| Rejects
| Resolves (text : option jsstring).

(** The environment: the reply to the [n]-th call of the model and the
    time that passes while the program awaits it, and the [n]-th result of
    [Math.random()].  Time does not run backwards. *)
Record Env := {
  generateContent : nat -> Prompt -> Reply;
  elapsed : nat -> N;
  random : nat -> Q
}.

Definition CACHE_TTL : Z := 5 * 60 * 1000.

(** ** Programs *)

Definition M (A : Type) : Type := World -> completion A * World.

Definition ret {A} (a : A) : M A := fun w => (Normal a, w).

Definition throw {A} (e : exn) : M A := fun w => (Throw e, w).

Definition bind {A B} (m : M A) (k : A -> M B) : M B :=
  fun w =>
    match m w with
    | (Normal a, w') => k a w'
    | (Throw e, w') => (Throw e, w')
    end.

(** [try { m } catch (error) { handler error }] *)
Definition try_catch {A} (m : M A) (handler : exn -> M A) : M A :=
  fun w =>
    match m w with
    | (Normal a, w') => (Normal a, w')
    | (Throw e, w') => handler e w'
    end.

Definition lift {A} (c : completion A) : M A := fun w => (c, w).

Declare Scope prog_scope.
Delimit Scope prog_scope with prog.
Bind Scope prog_scope with M.
Notation "x <- m ;; k" := (bind m (fun x => k))
  (at level 100, m at next level, right associativity) : prog_scope.
Notation "m ;; k" := (bind m (fun _ => k))
  (at level 100, right associativity) : prog_scope.

(** [stockCache.get(key)] *)
Definition stockCache_get (key : jsstring) : M (option CacheEntry) :=
  fun w => (Normal (stockCache w !! key), w).

(** [stockCache.set(key, entry)] *)
Definition stockCache_set (key : jsstring) (entry : CacheEntry) : M unit :=
  fun w =>
    (Normal tt,
     {| stockCache := <[key := entry]> (stockCache w);
        now := now w; sent := sent w; drawn := drawn w |}).

(** [Date.now()] *)
Definition Date_now : M Z := fun w => (Normal (now w), w).

(** [Math.random()] *)
Definition Math_random (E : Env) : M number :=
  fun w =>
    (Normal (Num (random E (drawn w))),
     {| stockCache := stockCache w; now := now w; sent := sent w;
        drawn := S (drawn w) |}).

(** [(await model.generateContent(prompt))?.response?.text?.()] *)
Definition model_generateContent (E : Env) (prompt : Prompt)
  : M (option jsstring) :=
  fun w =>
    let n := length (sent w) in
    let w' := {| stockCache := stockCache w;
                 now := now w + Z.of_N (elapsed E n);
                 sent := prompt :: sent w; drawn := drawn w |} in
    match generateContent E n prompt with
    | Rejects => (Throw Rejected, w')
    | Resolves text => (Normal text, w')
    end.

(** [JSON.parse(text)] *)
Definition JSON_parse (text : jsstring) : M value :=
  match JSON_parse_text text with
  | Some v => ret v
  | None => throw SyntaxError
  end.

(** ** [getStockMetrics] *)

Local Open Scope prog_scope.

(** One numeric property of [normalized] (lines 200-207):
    [v ? Number(v) : Math.random() * scale + offset]. *)
Definition numberOr (E : Env) (v : value) (scale offset : Q) : M number :=
  if ToBoolean v then lift (Number v)
  else (r <- Math_random E ;; ret (r * Num scale + Num offset)%num).

(** The object literal of lines 197-208; its properties are evaluated in
    the order they are written. *)
Definition normalize (E : Env) (parsed : value) (stockSymbol : jsstring)
  : M StockMetrics :=
  let stockName :=
    js_or (Get parsed (str "stockName"))
          (js_or (Get parsed (str "name")) (VStr stockSymbol)) in
  let symbol := js_or (Get parsed (str "symbol")) (VStr stockSymbol) in
  currentPrice <- numberOr E (Get parsed (str "currentPrice")) 100 50 ;;
  dayHigh <- numberOr E (Get parsed (str "dayHigh")) 100 60 ;;
  dayLow <- numberOr E (Get parsed (str "dayLow")) 100 40 ;;
  peRatio <- numberOr E (Get parsed (str "peRatio")) 30 10 ;;
  roe <- numberOr E (Get parsed (str "roe")) 0.5 0.1 ;;
  debtToEquity <- numberOr E (Get parsed (str "debtToEquity")) 1 0.2 ;;
  profitMargins <- numberOr E (Get parsed (str "profitMargins")) 0.5 0.1 ;;
  revenueGrowth <- numberOr E (Get parsed (str "revenueGrowth")) 0.3 0.05 ;;
  ret {| stockName := stockName; symbol := symbol;
         currentPrice := currentPrice; dayHigh := dayHigh; dayLow := dayLow;
         peRatio := peRatio; roe := roe; debtToEquity := debtToEquity;
         profitMargins := profitMargins; revenueGrowth := revenueGrowth |}.

(** Lines 172-188: the text that is parsed is the match of the regular
    expression when there is one and the whole reply otherwise; whatever
    the parse throws is replaced by one error. *)
Definition parseReply (text : jsstring) : M value :=
  try_catch
    match match_braces text with
    | Some jsonStr => JSON_parse jsonStr
    | None => JSON_parse text
    end
    (fun parseErr => throw (Error (str "Invalid JSON response from API"))).

Definition failureMessage (stockSymbol : jsstring) : jsstring :=
  str "Failed to retrieve real-time data for " ++ stockSymbol
  ++ str ". Please ensure the symbol is valid and try again.".

(** The [try] block of lines 154-216, run when the cache gives nothing. *)
Definition fetchStockMetrics (E : Env) (stockSymbol : jsstring) : M StockMetrics :=
  try_catch
    (result <- model_generateContent E (StockPrompt stockSymbol) ;;
     let text := default [] result in
     if negb (ToBoolean (VStr text)) || (length (trim text) =? 0)%nat
     then throw (Error (str "Empty response from API"))
     else
       parsed <- parseReply text ;;
       if negb (ToBoolean parsed) || negb (jstype_eqb (typeof parsed) TObject)
       then throw (Error (str "Response is not a valid object"))
       else
         normalized <- normalize E parsed stockSymbol ;;
         t <- Date_now ;;
         stockCache_set stockSymbol {| data := normalized; timestamp := t |} ;;
         ret normalized)
    (fun error => throw (Error (failureMessage stockSymbol))).

(** Whether [cached && Date.now() - cached.timestamp < CACHE_TTL] holds. *)
Definition fresh (cached : option CacheEntry) (t : Z) : bool :=
  match cached with
  | Some c => (t - timestamp c <? CACHE_TTL)%Z
  | None => false
  end.

(** Lines 147-217.  [Date.now()] only reads the clock, so that it is read
    here before [cached] is tested changes nothing. *)
Definition getStockMetrics (E : Env) (stockSymbol : jsstring) : M StockMetrics :=
  cached <- stockCache_get stockSymbol ;;
  t <- Date_now ;;
  match cached with
  | Some c =>
      if fresh cached t then ret (data c) else fetchStockMetrics E stockSymbol
  | None => fetchStockMetrics E stockSymbol
  end.

(** ** The routes *)

(** The JSON bodies the two handlers send.  The message of a caught
    exception is kept as the exception. *)
Inductive Body :=
| StockData (stockData : StockMetrics)
| GeminiResponse (geminiResponse : jsstring)
| StockError (err : exn)
| AnalysisError (error : exn).

Record Response := {
  status : nat;
  body : Body
}.

(** The handler of [GET /stock/:symbol] (lines 221-230), once
    [authenticateToken] has let the request through. *)
Definition stockRoute (E : Env) (param : jsstring) (w : World) : Response * World :=
  let symbol := toUpperCase param in
  match getStockMetrics E symbol w with
  | (Normal stockData, w') => ({| status := 200; body := StockData stockData |}, w')
  | (Throw err, w') => ({| status := 500; body := StockError err |}, w')
  end.

(** The handler of [GET /analyze/:symbol] (lines 233-261).  Filling the
    prompt converts [stockData.stockName] to a string, which may throw;
    [result.response.text()] throws when there is no text. *)
Definition analyzeRoute (E : Env) (param : jsstring) (w : World) : Response * World :=
  let symbol := toUpperCase param in
  let handler : M jsstring :=
    stockData <- getStockMetrics E symbol ;;
    (if toStringThrows (stockName stockData) then throw TypeError else ret tt) ;;
    result <- model_generateContent E (AnalysisPrompt stockData symbol) ;;
    match result with
    | Some geminiResponse => ret geminiResponse
    | None => throw TypeError
    end in
  match handler w with
  | (Normal geminiResponse, w') =>
      ({| status := 200; body := GeminiResponse geminiResponse |}, w')
  | (Throw error, w') => ({| status := 500; body := AnalysisError error |}, w')
  end.

(** ** Vocabulary of the statements *)

(** The eight numeric properties of [normalized], each with the name it is
    read under, where it is stored, and the scale and offset of its
    placeholder. *)
Inductive NumericField :=
| CurrentPrice | DayHigh | DayLow | PeRatio
| Roe | DebtToEquity | ProfitMargins | RevenueGrowth.

Definition key (f : NumericField) : jsstring :=
  match f with
  | CurrentPrice => str "currentPrice"
  | DayHigh => str "dayHigh"
  | DayLow => str "dayLow"
  | PeRatio => str "peRatio"
  | Roe => str "roe"
  | DebtToEquity => str "debtToEquity"
  | ProfitMargins => str "profitMargins"
  | RevenueGrowth => str "revenueGrowth"
  end.

Definition field (f : NumericField) : StockMetrics -> number :=
  match f with
  | CurrentPrice => currentPrice
  | DayHigh => dayHigh
  | DayLow => dayLow
  | PeRatio => peRatio
  | Roe => roe
  | DebtToEquity => debtToEquity
  | ProfitMargins => profitMargins
  | RevenueGrowth => revenueGrowth
  end.

Definition scale (f : NumericField) : Q :=
  match f with
  | CurrentPrice | DayHigh | DayLow => 100%Q
  | PeRatio => 30%Q
  | Roe | ProfitMargins => 0.5%Q
  | DebtToEquity => 1%Q
  | RevenueGrowth => 0.3%Q
  end.

Definition offset (f : NumericField) : Q :=
  match f with
  | CurrentPrice => 50%Q
  | DayHigh => 60%Q
  | DayLow => 40%Q
  | PeRatio => 10%Q
  | Roe | ProfitMargins => 0.1%Q
  | DebtToEquity => 0.2%Q
  | RevenueGrowth => 0.05%Q
  end.

(** The ranges the specification documents for the placeholders. *)
Definition documentedRange (f : NumericField) : Q * Q :=
  match f with
  | CurrentPrice => (50, 150)%Q
  | DayHigh => (60, 160)%Q
  | DayLow => (40, 140)%Q
  | PeRatio => (10, 40)%Q
  | Roe => (0.1, 0.6)%Q
  | DebtToEquity => (0.2, 1.2)%Q
  | ProfitMargins => (0.1, 0.6)%Q
  | RevenueGrowth => (0.05, 0.35)%Q
  end.

Definition inRange (r : Q * Q) (x : Q) : Prop := (fst r <= x /\ x <= snd r)%Q.

(** [Math.random()] returns a number that is at least 0 and less than 1. *)
Definition unitRandom (E : Env) : Prop :=
  forall k, (0 <= random E k /\ random E k < 1)%Q.

(** The world after one more call of [Math.random()]. *)
Definition tick (w : World) : World :=
  {| stockCache := stockCache w; now := now w; sent := sent w;
     drawn := S (drawn w) |}.

(** The world once the [n]-th call of the model has been awaited. *)
Definition called (E : Env) (prompt : Prompt) (w : World) : World :=
  {| stockCache := stockCache w;
     now := now w + Z.of_N (elapsed E (length (sent w)));
     sent := prompt :: sent w; drawn := drawn w |}.

(** What the model answers to the retrieval that starts in [w]. *)
Definition replyTo (E : Env) (stockSymbol : jsstring) (w : World) : Reply :=
  generateContent E (length (sent w)) (StockPrompt stockSymbol).

(** The text [JSON.parse] is applied to (lines 175-183). *)
Definition candidate (text : jsstring) : jsstring :=
  default text (match_braces text).

(** [!text || text.trim().length === 0] *)
Definition blank (text : jsstring) : bool :=
  negb (ToBoolean (VStr text)) || (length (trim text) =? 0)%nat.

(** The negation of [!parsed || typeof parsed !== 'object']. *)
Definition isObject (parsed : value) : bool :=
  ToBoolean parsed && jstype_eqb (typeof parsed) TObject.

(** The value that reaches normalization, if the reply gets that far. *)
Definition accepted (r : Reply) : option value :=
  match r with
  | Rejects => None
  | Resolves result =>
      let text := default [] result in
      if blank text then None
      else
        match JSON_parse_text (candidate text) with
        | Some parsed => if isObject parsed then Some parsed else None
        | None => None
        end
  end.

(** Whether the conversion of some numeric property throws. *)
Definition coercionThrows (parsed : value) : Prop :=
  exists f, toStringThrows (Get parsed (key f)) = true.

(** [s] occurs in [t]. *)
Definition occursIn (s t : jsstring) : Prop :=
  exists before after, t = before ++ s ++ after.

Definition nullish (v : value) : bool :=
  match v with
  | VUndefined | VNull => true
  | _ => false
  end.

(** ** Doubles *)

(** The placeholder as the program computes it, in binary64, for the draw
    [r] and literals [scale] and [offset]. *)
Definition placeholder64 (r scale offset : float) : float :=
  (r * scale + offset)%float.

(** The largest double below 1, the largest result [Math.random()] can
    return. *)
Definition largestDraw : float := (1 - 0x1p-53)%float.

(** ** Sample environments and worlds *)

(** A model that answers every prompt with [text] after 120 ms, and a
    [Math.random()] that returns one half. *)
Definition answering (text : jsstring) : Env :=
  {| generateContent := fun _ _ => Resolves (Some text);
     elapsed := fun _ => 120;
     random := fun _ => (1 # 2)%Q |}.

Definition unreachable : Env :=
  {| generateContent := fun _ _ => Rejects;
     elapsed := fun _ => 120;
     random := fun _ => (1 # 2)%Q |}.

(** The process just started, at time [t]. *)
Definition started (t : Z) : World :=
  {| stockCache := ∅; now := t; sent := []; drawn := 0 |}.

(** The world [dt] milliseconds later, nothing else having happened. *)
Definition later (dt : Z) (w : World) : World :=
  {| stockCache := stockCache w; now := now w + dt; sent := sent w;
     drawn := drawn w |}.

(** ** Worlds and outcomes *)

(** The world after [stockCache.set(stockSymbol, { data: d, timestamp:
    Date.now() })]. *)
Definition stored (stockSymbol : jsstring) (d : StockMetrics) (w : World) : World :=
  {| stockCache := <[stockSymbol := {| data := d; timestamp := now w |}]> (stockCache w);
     now := now w; sent := sent w; drawn := drawn w |}.

(** The world [w] with the map [c] for cache. *)
Definition withCache (c : gmap jsstring CacheEntry) (w : World) : World :=
  {| stockCache := c; now := now w; sent := sent w; drawn := drawn w |}.

(** The worlds [w] and [w'] differ at most in the count of random draws,
    which has not decreased. *)
Definition sameButDraws (w w' : World) : Prop :=
  stockCache w' = stockCache w /\ now w' = now w /\ sent w' = sent w
  /\ (drawn w <= drawn w')%nat.

(** A program whose result does not depend on the cache and that leaves
    the cache alone. *)
Definition cacheBlind {A} (m : M A) : Prop :=
  forall c w, m (withCache c w) = (fst (m w), withCache c (snd (m w))).

(** How one numeric property of the record comes out of the field [v] of
    the reply: the conversion of [v] when [v] is truthy, and otherwise a
    placeholder made from one of the draws numbered from [lo] up to, not
    including, [hi]. *)
Definition fieldOutcome (E : Env) (lo hi : nat) (v : value) (sc off : Q)
  (x : number) : Prop :=
  if ToBoolean v then Number v = Normal x
  else exists k, (lo <= k < hi)%nat /\ x = Num (random E k * sc + off).

Definition throws {A} (m : M A) (w : World) : Prop :=
  exists e w', m w = (Throw e, w').

Definition invalidJson : exn := Error (str "Invalid JSON response from API").

(** The parse as the code does it. *)
Definition parsedValue (text : jsstring) : option value :=
  JSON_parse_text (candidate text).

(** ** The wording of the specification *)

(** The specification's wording of the extraction: the first top-level
    [{...}] span runs from the first opening brace to the closing brace
    that matches it ([depth] counts the braces still open). *)
Fixpoint closeSpan (depth : nat) (s : jsstring) : option jsstring :=
  match s with
  | [] => None
  | c :: r =>
      if c =? ch "{" then option_map (cons c) (closeSpan (S depth) r)
      else if c =? ch "}" then
        match depth with
        | O => Some [c]
        | S depth' => option_map (cons c) (closeSpan depth' r)
        end
      else option_map (cons c) (closeSpan depth r)
  end.

Definition firstTopLevelSpan (text : jsstring) : option jsstring :=
  match fromFirst (ch "{") text with
  | Some (open :: rest) => option_map (cons open) (closeSpan 0 rest)
  | _ => None
  end.

(** The specification's wording of the parse: the first top-level span is
    parsed; if that yields no parse, the entire reply is parsed. *)
Definition statedParse (text : jsstring) : option value :=
  match firstTopLevelSpan text with
  | Some span =>
      match JSON_parse_text span with
      | Some v => Some v
      | None => JSON_parse_text text
      end
  | None => JSON_parse_text text
  end.

(** The four causes of failure the specification lists: the call of the
    model fails, the reply is empty or white space only, the parse fails,
    the parsed value is not an object.  "Object" is read as the code tests
    it, [parsed && typeof parsed === 'object']: an array is one, [null] and
    the primitive values are not. *)
Definition statedFailure (r : Reply) : Prop :=
  match r with
  | Rejects => True
  | Resolves result =>
      let text := default [] result in
      Forall (fun c => isWhiteSpace c = true) text
      \/ parsedValue text = None
      \/ exists parsed, parsedValue text = Some parsed /\ isObject parsed = false
  end.

(** ** Invariants of the cache *)

(** Every record in the cache has a [stockName] and a [symbol] that are
    neither [null] nor [undefined]. *)
Definition defined (d : StockMetrics) : Prop :=
  nullish (stockName d) = false /\ nullish (symbol d) = false.

Definition cacheDefined (c : gmap jsstring CacheEntry) : Prop :=
  forall k e, c !! k = Some e -> defined (data e).

(** Every key of the cache is its own upper case. *)
Definition upperKeys (c : gmap jsstring CacheEntry) : Prop :=
  forall k e, c !! k = Some e -> toUpperCase k = k.

(** ** Sample replies *)

(** A reply with the JSON object inside a sentence, and the record that
    comes out of it when every draw of [Math.random()] is one half. *)
Definition acmeReply : jsstring :=
  js "Sure! {'stockName':'Acme','symbol':'ACME','currentPrice':42}".

Definition acmeRecord : StockMetrics :=
  {| stockName := VStr (str "Acme"); symbol := VStr (str "ACME");
     currentPrice := Num (scientific 42 0);
     dayHigh := Num ((1 # 2) * 100 + 60);
     dayLow := Num ((1 # 2) * 100 + 40);
     peRatio := Num ((1 # 2) * 30 + 10);
     roe := Num ((1 # 2) * 0.5 + 0.1);
     debtToEquity := Num ((1 # 2) * 1 + 0.2);
     profitMargins := Num ((1 # 2) * 0.5 + 0.1);
     revenueGrowth := Num ((1 # 2) * 0.3 + 0.05) |}.

(** The world after a first retrieval of ACME in a process started at
    time 0: the entry was stored at time 120. *)
Definition acmeCached : World :=
  snd (getStockMetrics (answering acmeReply) (str "ACME") (started 0)).

Definition acmeEntry : CacheEntry := {| data := acmeRecord; timestamp := 120 |}.

(** A reply whose [roe] is an object with a property named [toString]. *)
Definition shadowedReply : jsstring := js "{'roe':{'toString':1}}".

(** A reply in which three numeric fields are falsy in three ways (zero,
    [null], the empty string), one is a numeric string and one is not
    numeric. *)
Definition mixedReply : jsstring :=
  js "{'currentPrice':0,'dayHigh':null,'dayLow':'','peRatio':'12.5','roe':'N/A'}".

(** A reply whose [roe] is the string N/A and whose [peRatio] is an object
    with a property named [toString]. *)
Definition naReply : jsstring := js "{'roe':'N/A','peRatio':{'toString':1}}".

Definition naParsed : value :=
  VObj [(str "roe", VStr (str "N/A"));
        (str "peRatio", VObj [(str "toString", VNum (Num (scientific 1 0)))])].

(** A reply whose [stockName] is a boolean and whose [symbol] is an
    array. *)
Definition oddNamesReply : jsstring := js "{'stockName':true,'symbol':['X']}".

(** ** Accounts: requests, documents and services *)

(** A document of the [User] collection. *)
Module User.
Record Doc := {
  _id : N;
  email : jsstring;
  passwordHash : jsstring
}.
End User.
Abbreviation UserDoc := User.Doc.

(** The payload [{ userId, email }] that [login] signs. *)
Inductive Payload :=
| tokenPayload (userId : N) (email : jsstring).

(** The libraries the account handlers call, over a user collection whose
    states are the [Db]: what they return is not read off this program, so
    they are parameters.  [User_findOne email] is [User.findOne({ email })],
    [User_save email passwordHash] is [new User({ email, passwordHash
    }).save()], [bcrypt_genSalt rounds n] is the [n]-th call of
    [bcrypt.genSalt(rounds)], [jwt_sign payload key t] is [jwt.sign(payload,
    key, { expiresIn: "1h" })] run at time [t], and [jwt_verify token key t]
    is the payload [jwt.verify] hands to its callback at time [t], [None]
    when it hands it an error. *)
Record Services (Db : Type) := {
  User_findOne : value -> Db -> completion (option UserDoc);
  User_save : value -> jsstring -> Db -> completion unit * Db;
  bcrypt_genSalt : nat -> nat -> completion jsstring;
  bcrypt_hash : value -> jsstring -> completion jsstring;
  bcrypt_compare : value -> jsstring -> completion bool;
  jwt_sign : Payload -> jsstring -> Z -> completion jsstring;
  jwt_verify : jsstring -> jsstring -> Z -> option Payload
}.
Arguments User_findOne {Db} s _ _.
Arguments User_save {Db} s _ _ _.
Arguments bcrypt_genSalt {Db} s _ _.
Arguments bcrypt_hash {Db} s _ _.
Arguments bcrypt_compare {Db} s _ _.
Arguments jwt_sign {Db} s _ _ _.
Arguments jwt_verify {Db} s _ _ _.

(** The user collection and the number of salts generated so far. *)
Record Accounts (Db : Type) := {
  users : Db;
  salts : nat
}.
Arguments users {Db} a.
Arguments salts {Db} a.

(** The JSON bodies of the account handlers and of the middleware. *)
Inductive AuthBody :=
| Message (message : jsstring)
| LoginOk (message token userEmail : jsstring)
| ErrorMessage (error : jsstring).

Record AuthResponse := {
  authStatus : nat;
  authBody : AuthBody
}.

(** [process.env.JWT_SECRET || "a-very-strong-default-secret-key"]
    (lines 107 and 126); [None] is a variable that is not set. *)
Definition secretKey (JWT_SECRET : option jsstring) : jsstring :=
  match JWT_SECRET with
  | Some k => if ToBoolean (VStr k) then k else str "a-very-strong-default-secret-key"
  | None => str "a-very-strong-default-secret-key"
  end.

(** [const { k } = body]: reading a property of [undefined] or [null]
    throws. *)
Definition property (body : value) (k : jsstring) : completion value :=
  match body with
  | VUndefined | VNull => Throw TypeError
  | _ => Normal (Get body k)
  end.

(** [v.length]: the number of code units of a string, the number of
    elements of an array, the own property of that name of an object, and
    [undefined] for a number or a boolean. *)
Definition lengthOf (v : value) : completion value :=
  match v with
  | VUndefined | VNull => Throw TypeError
  | VStr s => Normal (VNum (Num (inject_Z (Z.of_nat (length s)))))
  | VArr elems => Normal (VNum (Num (inject_Z (Z.of_nat (length elems)))))
  | VObj _ => Normal (Get v (str "length"))
  | VBool _ | VNum _ => Normal VUndefined
  end.

(** Number::lessThan, with [undefined] (a [NaN] operand) read as false. *)
Definition number_ltb (a b : number) : bool :=
  match a, b with
  | NaN, _ | _, NaN => false
  | Inf s, Inf t => s && negb t
  | Inf s, Num _ => s
  | Num _, Inf t => negb t
  | Num p, Num q => negb (Qle_bool q p)
  end.

(** [x < n] for a number [n]: the left operand is converted to a number,
    which may throw. *)
Definition lessThan (x : value) (n : Q) : completion bool :=
  match Number x with
  | Normal a => Normal (number_ltb a (Num n))
  | Throw e => Throw e
  end.

(** ** [POST /auth/signup] and [POST /auth/login] *)

Definition emailAndPasswordRequired : AuthResponse :=
  {| authStatus := 400; authBody := Message (str "Email and password are required.") |}.

Definition passwordTooShort : AuthResponse :=
  {| authStatus := 400;
     authBody := Message (str "Password must be at least 6 characters long.") |}.

Definition emailInUse : AuthResponse :=
  {| authStatus := 409; authBody := Message (str "Email already in use.") |}.

Definition userCreated : AuthResponse :=
  {| authStatus := 201; authBody := Message (str "User created successfully.") |}.

Definition signupError : AuthResponse :=
  {| authStatus := 500; authBody := Message (str "Server error during signup.") |}.

Definition invalidCredentials : AuthResponse :=
  {| authStatus := 401; authBody := Message (str "Invalid credentials.") |}.

Definition loginError : AuthResponse :=
  {| authStatus := 500; authBody := Message (str "Server error during login.") |}.

(** [password.length < 6] *)
Definition shorterThanSix (password : value) : completion bool :=
  match lengthOf password with
  | Normal len => lessThan len 6
  | Throw e => Throw e
  end.

(** The handler of lines 54-85 on the request body [body].  Every [Throw]
    is an exception that the [catch] of line 81 turns into the same
    answer. *)
Definition signup {Db} (svc : Services Db) (body : value) (a : Accounts Db)
  : AuthResponse * Accounts Db :=
  match property body (str "email"), property body (str "password") with
  | Normal email, Normal password =>
      if negb (ToBoolean email) || negb (ToBoolean password)
      then (emailAndPasswordRequired, a)
      else
        match shorterThanSix password with
        | Throw _ => (signupError, a)
        | Normal true => (passwordTooShort, a)
        | Normal false =>
            match User_findOne svc email (users a) with
            | Throw _ => (signupError, a)
            | Normal (Some existingUser) => (emailInUse, a)
            | Normal None =>
                let a1 := {| users := users a; salts := S (salts a) |} in
                match bcrypt_genSalt svc 10 (salts a) with
                | Throw _ => (signupError, a1)
                | Normal salt =>
                    match bcrypt_hash svc password salt with
                    | Throw _ => (signupError, a1)
                    | Normal passwordHash =>
                        match User_save svc email passwordHash (users a) with
                        | (Throw _, db) =>
                            (signupError, {| users := db; salts := S (salts a) |})
                        | (Normal _, db) =>
                            (userCreated, {| users := db; salts := S (salts a) |})
                        end
                    end
                end
            end
        end
  | _, _ => (signupError, a)
  end.

(** The handler of lines 88-115 on the request body [body], with the
    environment variable [JWT_SECRET] and the time [t] at which the token
    is signed.  It only reads the collection. *)
Definition login {Db} (svc : Services Db) (JWT_SECRET : option jsstring)
  (body : value) (t : Z) (db : Db) : AuthResponse :=
  match property body (str "email"), property body (str "password") with
  | Normal email, Normal password =>
      match User_findOne svc email db with
      | Throw _ => loginError
      | Normal None => invalidCredentials
      | Normal (Some user) =>
          match bcrypt_compare svc password (User.passwordHash user) with
          | Throw _ => loginError
          | Normal false => invalidCredentials
          | Normal true =>
              match jwt_sign svc (tokenPayload (User._id user) (User.email user))
                             (secretKey JWT_SECRET) t with
              | Throw _ => loginError
              | Normal token =>
                  {| authStatus := 200;
                     authBody := LoginOk (str "Login successful.") token
                                         (User.email user) |}
              end
          end
      end
  | _, _ => loginError
  end.

(** ** [authenticateToken] and the protected routes *)

(** [s.split(sep)] for a separator of one code unit. *)
Fixpoint split (sep : N) (s : jsstring) : list jsstring :=
  match s with
  | [] => [[]]
  | c :: r =>
      if c =? sep then [] :: split sep r
      else
        match split sep r with
        | seg :: segs => (c :: seg) :: segs
        | [] => [[c]]
        end
  end.

(** [authHeader && authHeader.split(' ')[1]] (line 120); [None] is a
    request without the header. *)
Definition headerToken (authHeader : option jsstring) : value :=
  match authHeader with
  | None => VUndefined
  | Some h =>
      if ToBoolean (VStr h)
      then match nth_error (split 32 h) 1 with
           | Some token => VStr token
           | None => VUndefined
           end
      else VStr h
  end.

(** What the middleware does with a request: it answers it, or it calls
    [next()] with the payload in [req.user]. *)
Inductive Gate :=
| Denied (status : nat) (error : jsstring)
| Next (user : Payload).

Definition noTokenProvided : Gate :=
  Denied 401 (str "Access denied. No token provided.").

Definition invalidToken : Gate := Denied 403 (str "Invalid token.").

(** Lines 118-134, for a request that arrives at time [t]. *)
Definition authenticateToken {Db} (svc : Services Db) (JWT_SECRET : option jsstring)
  (authHeader : option jsstring) (t : Z) : Gate :=
  match headerToken authHeader with
  | VUndefined | VNull => noTokenProvided
  | VStr token =>
      match jwt_verify svc token (secretKey JWT_SECRET) t with
      | Some user => Next user
      | None => invalidToken
      end
  | _ => invalidToken
  end.

(** The answer to a request on a protected route: that of the middleware,
    or that of the handler. *)
Inductive Answer :=
| Refused (status : nat) (error : jsstring)
| Answered (response : Response).

(** [app.get(path, authenticateToken, handler)]: the handler runs when the
    middleware calls [next()]. *)
Definition protected {Db} (svc : Services Db) (JWT_SECRET : option jsstring)
  (handler : World -> Response * World) (authHeader : option jsstring)
  (w : World) : Answer * World :=
  match authenticateToken svc JWT_SECRET authHeader (now w) with
  | Denied status error => (Refused status error, w)
  | Next _ => let (response, w') := handler w in (Answered response, w')
  end.

(** [GET /stock/:symbol] and [GET /analyze/:symbol] as they are
    registered (lines 221 and 233). *)
Definition getStock {Db} (svc : Services Db) (JWT_SECRET : option jsstring)
  (E : Env) (authHeader : option jsstring) (param : jsstring) (w : World)
  : Answer * World :=
  protected svc JWT_SECRET (stockRoute E param) authHeader w.

Definition getAnalyze {Db} (svc : Services Db) (JWT_SECRET : option jsstring)
  (E : Env) (authHeader : option jsstring) (param : jsstring) (w : World)
  : Answer * World :=
  protected svc JWT_SECRET (analyzeRoute E param) authHeader w.

(** ** Sample services *)

(** A collection keyed by the email as it was given, a hash that writes
    the salt in front of the password, and a token that writes the user's
    number in front of the email.  They stand for the libraries in
    examples. *)
Definition sampleServices : Services (gmap jsstring UserDoc) :=
  {| User_findOne := fun email db =>
       match email with
       | VStr e => Normal (db !! e)
       | _ => Normal None
       end;
     User_save := fun email passwordHash db =>
       match email with
       | VStr e =>
           (Normal tt,
            <[e := {| User._id := N.of_nat (size db); User.email := e;
                      User.passwordHash := passwordHash |}]> db)
       | _ => (Throw (Error (str "User validation failed")), db)
       end;
     bcrypt_genSalt := fun rounds n => Normal (str "$2a$10$salt");
     bcrypt_hash := fun password salt =>
       match password with
       | VStr p => Normal (salt ++ p)
       | _ => Throw (Error (str "Illegal arguments"))
       end;
     bcrypt_compare := fun password hash =>
       match password with
       | VStr p => Normal (bool_decide (p `suffix_of` hash))
       | _ => Throw (Error (str "Illegal arguments"))
       end;
     jwt_sign := fun payload key t =>
       match payload with
       | tokenPayload userId email => Normal (userId :: email)
       end;
     jwt_verify := fun token key t =>
       match token with
       | userId :: email => Some (tokenPayload userId email)
       | [] => None
       end |}.

Definition noAccounts : Accounts (gmap jsstring UserDoc) :=
  {| users := ∅; salts := 0 |}.

Definition credentials (email password : jsstring) : value :=
  VObj [(str "email", VStr email); (str "password", VStr password)].

(** ** The order of the numeric fields *)

(** The numeric fields in the order in which the object literal evaluates
    them. *)
Definition fieldOrder : list NumericField :=
  [CurrentPrice; DayHigh; DayLow; PeRatio; Roe; DebtToEquity; ProfitMargins;
   RevenueGrowth].

Definition NumericField_eqb (f g : NumericField) : bool :=
  match f, g with
  | CurrentPrice, CurrentPrice | DayHigh, DayHigh | DayLow, DayLow
  | PeRatio, PeRatio | Roe, Roe | DebtToEquity, DebtToEquity
  | ProfitMargins, ProfitMargins | RevenueGrowth, RevenueGrowth => true
  | _, _ => false
  end.


(** One when the property of [parsed] for [f] is falsy, which costs a
    draw of [Math.random()], and zero otherwise. *)
Definition draws (parsed : value) (f : NumericField) : nat :=
  if ToBoolean (Get parsed (key f)) then 0 else 1.

(** The number of draws made for the fields of [fields] that come before
    [f]. *)
Fixpoint drawsBefore (parsed : value) (f : NumericField)
  (fields : list NumericField) : nat :=
  match fields with
  | [] => 0
  | g :: rest =>
      if NumericField_eqb g f then 0
      else (draws parsed g + drawsBefore parsed f rest)%nat
  end.

(** The number of draws made for all the fields of [fields]. *)
Fixpoint drawsOf (parsed : value) (fields : list NumericField) : nat :=
  match fields with
  | [] => 0
  | g :: rest => (draws parsed g + drawsOf parsed rest)%nat
  end.

(** Two environments that differ at most in what [Math.random()]
    returns. *)
Definition sameModel (E1 E2 : Env) : Prop :=
  (forall n prompt, generateContent E1 n prompt = generateContent E2 n prompt)
  /\ (forall n, elapsed E1 n = elapsed E2 n).

(** The same environment with another reply of the model. *)
Definition replying (text : jsstring) (E : Env) : Env :=
  {| generateContent := fun _ _ => Resolves (Some text);
     elapsed := elapsed E; random := random E |}.

(** A [Math.random()] whose [k]-th result is [1 / (k + 2)]. *)
Definition harmonic (text : jsstring) : Env :=
  {| generateContent := fun _ _ => Resolves (Some text);
     elapsed := fun _ => 120;
     random := fun k => (1 # Pos.of_nat (k + 2))%Q |}.

(** A reply with the eight numeric properties. *)
Definition completeReply : jsstring :=
  js "{'stockName':'Acme','currentPrice':42,'dayHigh':43,'dayLow':41,'peRatio':12,'roe':0.2,'debtToEquity':0.5,'profitMargins':0.1,'revenueGrowth':'7'}".

(** ** The parser *)

Lemma skipSpace_length s : (length (skipSpace s) <= length s)%nat.
Proof.
  induction s as [| c r IH]; simpl; [lia |].
  destruct (isJsonSpace c); simpl; lia.
Qed.

Lemma skipSpace_cons s c r :
  skipSpace s = c :: r -> (S (length r) <= length s)%nat.
Proof.
  intros H. pose proof (skipSpace_length s) as Hl. rewrite H in Hl. exact Hl.
Qed.

Lemma spanDigits_length s d r :
  spanDigits s = (d, r) -> length s = (length d + length r)%nat.
Proof.
  revert d r. induction s as [| c s IH]; simpl; intros d r H.
  - injection H as <- <-. reflexivity.
  - destruct (isDigit c).
    + destruct (spanDigits s) as [d' r'] eqn:Hs. injection H as <- <-.
      simpl. rewrite (IH d' r' eq_refl). reflexivity.
    + injection H as <- <-. reflexivity.
Qed.

Lemma parseChars_length s cs r :
  parseChars s = Some (cs, r) -> (length r < length s)%nat.
Proof.
  revert cs r. induction s as [s IH] using (induction_ltof1 _ (@length N)).
  unfold ltof in IH. intros cs r. destruct s as [| c s]; cbn [parseChars];
    [discriminate |].
  destruct (c =? 34); [intros H; injection H as <- <-; simpl; lia |].
  destruct (c <? 32); [discriminate |].
  destruct (c =? 92).
  - destruct s as [| e s1]; [discriminate |].
    assert (Hsimple : forall u,
              match parseChars s1 with
              | Some (cs0, rest) => Some (u :: cs0, rest)
              | None => None
              end = Some (cs, r) -> (length r < S (S (length s1)))%nat).
    { intros u H. destruct (parseChars s1) as [[cs0 rest] |] eqn:Hp;
        [| discriminate H].
      injection H as <- <-. apply IH in Hp; simpl; lia. }
    repeat (match goal with
            | |- context [if ?b then _ else _] => destruct b
            end; [simpl; apply Hsimple |]).
    destruct (e =? ch "u"); [| discriminate].
    destruct s1 as [| h1 [| h2 [| h3 [| h4 r2]]]]; try discriminate.
    destruct (hex4 h1 h2 h3 h4); [| discriminate].
    destruct (parseChars r2) as [[cs0 rest] |] eqn:Hp; [| discriminate].
    intros H. injection H as <- <-. apply IH in Hp; simpl; lia.
  - destruct (parseChars s) as [[cs0 rest] |] eqn:Hp; [| discriminate].
    intros H. injection H as <- <-. apply IH in Hp; simpl; lia.
Qed.

Ltac break_match :=
  match goal with
  | |- context [match ?x with _ => _ end] =>
      lazymatch x with
      | context [match _ with _ => _ end] => fail
      | _ => destruct x eqn:?
      end
  end.

Ltac lengths :=
  repeat match goal with
         | H : spanDigits _ = _ |- _ => apply spanDigits_length in H
         | H : (_, _) = (_, _) |- _ => injection H as ? ?
         end;
  subst; simpl in *; lia.

Lemma exponentPart_length s e r :
  exponentPart s = Some (e, r) -> (length r <= length s)%nat.
Proof.
  unfold exponentPart. repeat break_match; intros H; try discriminate H;
    injection H as ? ?; lengths.
Qed.

Lemma parseNumber_length s n r :
  parseNumber s = Some (n, r) -> (length r < length s)%nat.
Proof.
  unfold parseNumber. repeat break_match; intros H; try discriminate H;
    injection H as ? ?;
    repeat match goal with
           | H : exponentPart _ = _ |- _ => apply exponentPart_length in H
           end; lengths.
Qed.

Lemma stripPrefix_length p s r :
  stripPrefix p s = Some r -> length s = (length p + length r)%nat.
Proof.
  revert s. induction p as [| a p IH]; intros s; simpl.
  - intros H. injection H as <-. reflexivity.
  - destruct s as [| b s]; [discriminate |].
    destruct (a =? b); [| discriminate]. intros H. simpl. rewrite (IH _ H). reflexivity.
Qed.

Ltac measure :=
  repeat match goal with
         | H : skipSpace _ = _ :: _ |- _ => apply skipSpace_cons in H
         | H : parseChars _ = Some _ |- _ => apply parseChars_length in H
         | H : parseNumber _ = Some _ |- _ => apply parseNumber_length in H
         | H : stripPrefix _ _ = Some _ |- _ => apply stripPrefix_length in H
         end.

(** A value that is read takes at least one character. *)
Lemma parse_shrinks fuel :
  (forall s v r, parseValue fuel s = Some (v, r) -> (length r < length s)%nat)
  /\ (forall acc s v r,
        parseElements fuel acc s = Some (v, r) -> (length r < length s)%nat)
  /\ (forall acc s v r,
        parseMembers fuel acc s = Some (v, r) -> (length r < length s)%nat).
Proof.
  induction fuel as [| fuel (IHV & IHE & IHM)];
    [repeat split; intros; discriminate |].
  repeat split.
  - intros s v r. cbn [parseValue]. repeat break_match; intros H;
      try discriminate H; try (injection H as ? ?); subst; measure;
      repeat match goal with
             | H : parseElements fuel _ _ = Some _ |- _ => apply IHE in H
             | H : parseMembers fuel _ _ = Some _ |- _ => apply IHM in H
             end; simpl in *; lia.
  - intros acc s v r. cbn [parseElements]. repeat break_match; intros H;
      try discriminate H; try (injection H as ? ?); subst; measure;
      repeat match goal with
             | H : parseValue fuel _ = Some _ |- _ => apply IHV in H
             | H : parseElements fuel _ _ = Some _ |- _ => apply IHE in H
             end; simpl in *; lia.
  - intros acc s v r. cbn [parseMembers]. repeat break_match; intros H;
      try discriminate H; try (injection H as ? ?); subst; measure;
      repeat match goal with
             | H : parseValue fuel _ = Some _ |- _ => apply IHV in H
             | H : parseMembers fuel _ _ = Some _ |- _ => apply IHM in H
             end; simpl in *; lia.
Qed.

Ltac shrink :=
  repeat match goal with
         | H : parseValue _ _ = Some _ |- _ => apply parse_shrinks in H
         | H : parseElements _ _ _ = Some _ |- _ => apply parse_shrinks in H
         | H : parseMembers _ _ _ = Some _ |- _ => apply parse_shrinks in H
         end.

(** Past twice the length of the text, more fuel does not change what the
    parser returns. *)
Lemma parse_fuel fuel :
  forall fuel',
    (forall s, (2 * length s + 1 <= fuel)%nat -> (2 * length s + 1 <= fuel')%nat ->
               parseValue fuel s = parseValue fuel' s)
    /\ (forall acc s,
          (2 * length s + 2 <= fuel)%nat -> (2 * length s + 2 <= fuel')%nat ->
          parseElements fuel acc s = parseElements fuel' acc s)
    /\ (forall acc s,
          (2 * length s + 2 <= fuel)%nat -> (2 * length s + 2 <= fuel')%nat ->
          parseMembers fuel acc s = parseMembers fuel' acc s).
Proof.
  induction fuel as [| fuel IH]; intros fuel';
    [repeat split; intros; lia |].
  destruct fuel' as [| fuel']; [repeat split; intros; lia |].
  destruct (IH fuel') as (IHV & IHE & IHM). clear IH.
  repeat split.
  - intros s H1 H2. cbn [parseValue].
    repeat first
      [ reflexivity
      | rewrite IHE by (simpl in *; lia)
      | rewrite IHM by (simpl in *; lia)
      | break_match; measure; shrink ].
  - intros acc s H1 H2. cbn [parseElements].
    repeat first
      [ reflexivity
      | rewrite IHV by (simpl in *; lia)
      | rewrite IHE by (simpl in *; lia)
      | break_match; measure; shrink ].
  - intros acc s H1 H2. cbn [parseMembers].
    repeat first
      [ reflexivity
      | rewrite IHV by (simpl in *; lia)
      | rewrite IHM by (simpl in *; lia)
      | break_match; measure; shrink ].
Qed.

(** [JSON.parse] with any larger amount of fuel gives the same answer: a
    [None] is a syntax error, never a parser that stopped short. *)
Lemma JSON_parse_text_fuel text fuel :
  (2 * length text + 2 <= fuel)%nat ->
  JSON_parse_text text
  = match parseValue fuel text with
    | Some (v, rest) =>
        match skipSpace rest with
        | [] => Some v
        | _ :: _ => None
        end
    | None => None
    end.
Proof.
  intros H. unfold JSON_parse_text.
  rewrite (proj1 (parse_fuel (2 * length text + 2) fuel) text) by lia.
  reflexivity.
Qed.

(** *** The runtime on samples *)

Example JSON_parse_embedded :
  JSON_parse_text (candidate acmeReply)
  = Some (VObj [(str "stockName", VStr (str "Acme"));
                (str "symbol", VStr (str "ACME"));
                (str "currentPrice", VNum (Num (scientific 42 0)))]).
Proof. vm_compute. reflexivity. Qed.

Example JSON_parse_repeated_key :
  JSON_parse_text (js "{'a':1,'b':[true,null],'a':'x'}")
  = Some (VObj [(str "a", VStr (str "x"));
                (str "b", VArr [VBool true; VNull])]).
Proof. vm_compute. reflexivity. Qed.

Example JSON_parse_rejects :
  map JSON_parse_text
      [js "I cannot help with that."; js "{'a':1,}"; js "[1 2]"; js "01";
       js "{a:1}"; js "'unterminated"; []]
  = [None; None; None; None; None; None; None].
Proof. vm_compute. reflexivity. Qed.

Example Number_of_strings :
  map StringToNumber [str "N/A"; str " 42 "; str "-1.5e2"; str "0x1F"; [];
                      str "Infinity"; str "1,2"]
  = [NaN; Num (scientific 42 0); Num (scientific (-15) 1);
     Num (inject_Z 31); Num 0; Inf false; NaN].
Proof. vm_compute. reflexivity. Qed.

Example Number_of_objects :
  Number (VObj []) = Normal NaN
  /\ Number (VObj [(str "toString", VNum (Num 1))]) = Throw TypeError
  /\ Number (VObj [(str "valueOf", VNum (Num 1))]) = Normal NaN
  /\ Number (VArr []) = Normal (Num 0)
  /\ Number (VArr [VStr (str "7")]) = Normal (Num (scientific 7 0))
  /\ Number (VArr [VNum (Num 1); VNum (Num 2)]) = Normal NaN
  /\ Number (VArr [VObj [(str "toString", VNull)]]) = Throw TypeError.
Proof. vm_compute. repeat split; reflexivity. Qed.

(** In binary64 the placeholders made from the smallest and from the
    largest draw are the bounds of the documented ranges, or lie within
    them: the upper bound of the first four ranges is reached, by rounding.
    This is why the ranges are closed at both ends. *)
Example placeholder64_extremes :
  map (fun '(scale, offset) => placeholder64 0 scale offset)
      [(100, 50); (100, 60); (100, 40); (30, 10)]%float
  = [50; 60; 40; 10]%float
  /\ map (fun '(scale, offset) => placeholder64 largestDraw scale offset)
         [(100, 50); (100, 60); (100, 40); (30, 10)]%float
     = [150; 160; 140; 40]%float
  /\ map (fun '(scale, offset, upper) =>
            (placeholder64 largestDraw scale offset <=? upper)%float)
         [(0x1p-1, 0x1.999999999999ap-4, 0x1.3333333333333p-1);
          (1, 0x1.999999999999ap-3, 0x1.3333333333333p+0);
          (0x1p-1, 0x1.999999999999ap-4, 0x1.3333333333333p-1);
          (0x1.3333333333333p-2, 0x1.999999999999ap-5, 0x1.6666666666666p-2)]%float
     = [true; true; true; true].
Proof. vm_compute. repeat split; reflexivity. Qed.

(** ** Reasoning about programs *)

Lemma bind_Normal {A B} (m : M A) (k : A -> M B) w b w' :
  bind m k w = (Normal b, w') ->
  exists a w1, m w = (Normal a, w1) /\ k a w1 = (Normal b, w').
Proof.
  unfold bind. destruct (m w) as [[a|e] w1]; intros H.
  - exists a, w1. split; [reflexivity | exact H].
  - discriminate H.
Qed.

Lemma bind_Throw {A B} (m : M A) (k : A -> M B) w e w' :
  bind m k w = (Throw e, w') ->
  m w = (Throw e, w') \/
  exists a w1, m w = (Normal a, w1) /\ k a w1 = (Throw e, w').
Proof.
  unfold bind. destruct (m w) as [[a|e1] w1]; intros H.
  - right. exists a, w1. split; [reflexivity | exact H].
  - left. injection H as -> ->. reflexivity.
Qed.

Lemma bind_of_Normal {A B} (m : M A) (k : A -> M B) w a w1 :
  m w = (Normal a, w1) -> bind m k w = k a w1.
Proof. unfold bind. intros ->. reflexivity. Qed.


(** [Number] throws exactly on the values whose conversion to a string
    throws, and what it throws is a [TypeError]. *)
Lemma Number_cases (v : value) :
  (toStringThrows v = true /\ Number v = Throw TypeError) \/
  (toStringThrows v = false /\ exists x, Number v = Normal x).
Proof.
  destruct v; simpl; try (right; split; [reflexivity | eauto]).
  - destruct (existsb toStringThrows elems); [left | right]; eauto.
  - destruct (hasOwn (str "toString") props); [left | right]; eauto.
Qed.

Lemma toStringThrows_truthy v : toStringThrows v = true -> ToBoolean v = true.
Proof. destruct v; simpl; (discriminate || reflexivity). Qed.

Lemma numberOr_eq E v sc off w :
  numberOr E v sc off w =
  if ToBoolean v then (Number v, w)
  else (Normal (Num (random E (drawn w) * sc + off)), tick w).
Proof. unfold numberOr. destruct (ToBoolean v); reflexivity. Qed.

Lemma sameButDraws_refl w : sameButDraws w w.
Proof. unfold sameButDraws. auto. Qed.

Lemma sameButDraws_trans w1 w2 w3 :
  sameButDraws w1 w2 -> sameButDraws w2 w3 -> sameButDraws w1 w3.
Proof.
  unfold sameButDraws. intros (-> & -> & -> & H1) (-> & -> & -> & H2).
  repeat split; lia.
Qed.

Lemma fieldOutcome_weaken E lo hi lo' hi' v sc off x :
  (lo' <= lo)%nat -> (hi <= hi')%nat ->
  fieldOutcome E lo hi v sc off x -> fieldOutcome E lo' hi' v sc off x.
Proof.
  unfold fieldOutcome. intros Hlo Hhi. destruct (ToBoolean v); [auto |].
  intros (k & Hk & ->). exists k. split; [lia | reflexivity].
Qed.

Lemma numberOr_Normal E v sc off w x w' :
  numberOr E v sc off w = (Normal x, w') ->
  sameButDraws w w' /\ fieldOutcome E (drawn w) (drawn w') v sc off x.
Proof.
  rewrite numberOr_eq. unfold fieldOutcome, sameButDraws.
  destruct (ToBoolean v); intros H.
  - injection H as H ->. auto.
  - injection H as <- <-. simpl. repeat split; try lia.
    exists (drawn w). split; [lia | reflexivity].
Qed.

Lemma numberOr_Throw E v sc off w e w' :
  numberOr E v sc off w = (Throw e, w') ->
  w' = w /\ e = TypeError /\ toStringThrows v = true.
Proof.
  rewrite numberOr_eq. destruct (ToBoolean v); intros H; [| discriminate H].
  injection H as H ->.
  destruct (Number_cases v) as [[Ht Hn] | [Ht [x Hn]]]; rewrite Hn in H.
  - injection H as <-. auto.
  - discriminate H.
Qed.

Lemma numberOr_total E v sc off w :
  toStringThrows v = false -> exists x w', numberOr E v sc off w = (Normal x, w').
Proof.
  intros Ht. rewrite numberOr_eq. destruct (ToBoolean v); [| eauto].
  destruct (Number_cases v) as [[Ht' _] | [_ [x Hn]]]; [congruence |].
  rewrite Hn. eauto.
Qed.

(** *** The object literal *)

Ltac step_Normal H x w1 S1 O1 :=
  apply bind_Normal in H as (x & w1 & S1 & H);
  apply numberOr_Normal in S1 as [S1 O1].

Lemma normalize_Normal E parsed stockSymbol w d w' :
  normalize E parsed stockSymbol w = (Normal d, w') ->
  sameButDraws w w'
  /\ stockName d = js_or (Get parsed (str "stockName"))
                         (js_or (Get parsed (str "name")) (VStr stockSymbol))
  /\ symbol d = js_or (Get parsed (str "symbol")) (VStr stockSymbol)
  /\ forall f, fieldOutcome E (drawn w) (drawn w') (Get parsed (key f))
                            (scale f) (offset f) (field f d).
Proof.
  unfold normalize. intros H.
  step_Normal H x1 w1 S1 O1. step_Normal H x2 w2 S2 O2.
  step_Normal H x3 w3 S3 O3. step_Normal H x4 w4 S4 O4.
  step_Normal H x5 w5 S5 O5. step_Normal H x6 w6 S6 O6.
  step_Normal H x7 w7 S7 O7. step_Normal H x8 w8 S8 O8.
  unfold ret in H. injection H as <- <-.
  assert (Hd : (drawn w <= drawn w1 <= drawn w2 /\ drawn w2 <= drawn w3 <= drawn w4
                /\ drawn w4 <= drawn w5 <= drawn w6
                /\ drawn w6 <= drawn w7 <= drawn w8)%nat).
  { unfold sameButDraws in *. lia. }
  split; [| split; [reflexivity | split; [reflexivity |]]].
  - eauto 10 using sameButDraws_trans.
  - intros f. destruct f; simpl;
      (eapply fieldOutcome_weaken; [| | eassumption]; lia).
Qed.

Ltac step_Throw H x w1 S1 :=
  apply bind_Throw in H as [H | (x & w1 & S1 & H)];
  [ apply numberOr_Throw in H as (-> & -> & H) |
    apply numberOr_Normal in S1 as [S1 _] ].

Lemma normalize_Throw E parsed stockSymbol w e w' :
  normalize E parsed stockSymbol w = (Throw e, w') ->
  sameButDraws w w' /\ e = TypeError /\ coercionThrows parsed.
Proof.
  unfold normalize, coercionThrows. intros H.
  step_Throw H x1 w1 S1.
  { split; [apply sameButDraws_refl |].
    split; [reflexivity |]. exists CurrentPrice. exact H. }
  step_Throw H x2 w2 S2.
  { split; [assumption |]. split; [reflexivity |]. exists DayHigh. exact H. }
  step_Throw H x3 w3 S3.
  { split; [eauto using sameButDraws_trans |]. split; [reflexivity |].
    exists DayLow. exact H. }
  step_Throw H x4 w4 S4.
  { split; [eauto using sameButDraws_trans |]. split; [reflexivity |].
    exists PeRatio. exact H. }
  step_Throw H x5 w5 S5.
  { split; [eauto 6 using sameButDraws_trans |]. split; [reflexivity |].
    exists Roe. exact H. }
  step_Throw H x6 w6 S6.
  { split; [eauto 7 using sameButDraws_trans |]. split; [reflexivity |].
    exists DebtToEquity. exact H. }
  step_Throw H x7 w7 S7.
  { split; [eauto 8 using sameButDraws_trans |]. split; [reflexivity |].
    exists ProfitMargins. exact H. }
  step_Throw H x8 w8 S8.
  { split; [eauto 9 using sameButDraws_trans |]. split; [reflexivity |].
    exists RevenueGrowth. exact H. }
  discriminate H.
Qed.

Lemma normalize_total E parsed stockSymbol w :
  (forall f, toStringThrows (Get parsed (key f)) = false) ->
  exists d w', normalize E parsed stockSymbol w = (Normal d, w').
Proof.
  intros Hf. unfold normalize.
  destruct (numberOr_total E _ 100 50 w (Hf CurrentPrice)) as (x1 & w1 & H1).
  rewrite (bind_of_Normal _ _ _ _ _ H1).
  destruct (numberOr_total E _ 100 60 w1 (Hf DayHigh)) as (x2 & w2 & H2).
  rewrite (bind_of_Normal _ _ _ _ _ H2).
  destruct (numberOr_total E _ 100 40 w2 (Hf DayLow)) as (x3 & w3 & H3).
  rewrite (bind_of_Normal _ _ _ _ _ H3).
  destruct (numberOr_total E _ 30 10 w3 (Hf PeRatio)) as (x4 & w4 & H4).
  rewrite (bind_of_Normal _ _ _ _ _ H4).
  destruct (numberOr_total E _ 0.5 0.1 w4 (Hf Roe)) as (x5 & w5 & H5).
  rewrite (bind_of_Normal _ _ _ _ _ H5).
  destruct (numberOr_total E _ 1 0.2 w5 (Hf DebtToEquity)) as (x6 & w6 & H6).
  rewrite (bind_of_Normal _ _ _ _ _ H6).
  destruct (numberOr_total E _ 0.5 0.1 w6 (Hf ProfitMargins)) as (x7 & w7 & H7).
  rewrite (bind_of_Normal _ _ _ _ _ H7).
  destruct (numberOr_total E _ 0.3 0.05 w7 (Hf RevenueGrowth)) as (x8 & w8 & H8).
  rewrite (bind_of_Normal _ _ _ _ _ H8).
  unfold ret. eauto.
Qed.

(** *** The retrieval *)

Lemma fetchStockMetrics_eq E stockSymbol w :
  fetchStockMetrics E stockSymbol w =
  let w1 := called E (StockPrompt stockSymbol) w in
  match accepted (replyTo E stockSymbol w) with
  | None => (Throw (Error (failureMessage stockSymbol)), w1)
  | Some parsed =>
      match normalize E parsed stockSymbol w1 with
      | (Normal d, w2) => (Normal d, stored stockSymbol d w2)
      | (Throw _, w2) => (Throw (Error (failureMessage stockSymbol)), w2)
      end
  end.
Proof.
  unfold fetchStockMetrics, replyTo, accepted, called, stored, parseReply,
    candidate, JSON_parse, try_catch, bind, model_generateContent, Date_now,
    stockCache_set, ret, throw.
  destruct (generateContent E (length (sent w)) (StockPrompt stockSymbol))
    as [| result]; [reflexivity |].
  cbv zeta. fold (blank (default [] result)).
  destruct (blank (default [] result)); [reflexivity |].
  destruct (match_braces (default [] result)) as [jsonStr |];
    cbv beta iota delta [from_option id].
  - destruct (JSON_parse_text jsonStr) as [parsed |]; [| reflexivity].
    rewrite <- negb_andb. fold (isObject parsed).
    destruct (isObject parsed); [| reflexivity]. cbv beta iota delta [negb].
    destruct (normalize E parsed stockSymbol _) as [[d | e] w2]; reflexivity.
  - destruct (JSON_parse_text _) as [parsed |]; [| reflexivity].
    rewrite <- negb_andb. fold (isObject parsed).
    destruct (isObject parsed); [| reflexivity]. cbv beta iota delta [negb].
    destruct (normalize E parsed stockSymbol _) as [[d | e] w2]; reflexivity.
Qed.

Lemma getStockMetrics_hit E stockSymbol w c :
  stockCache w !! stockSymbol = Some c ->
  (now w - timestamp c < CACHE_TTL)%Z ->
  getStockMetrics E stockSymbol w = (Normal (data c), w).
Proof.
  intros Hc Ht. unfold getStockMetrics, bind, stockCache_get, Date_now.
  rewrite Hc. simpl. apply Z.ltb_lt in Ht. rewrite Ht. reflexivity.
Qed.

Lemma getStockMetrics_miss E stockSymbol w :
  fresh (stockCache w !! stockSymbol) (now w) = false ->
  getStockMetrics E stockSymbol w = fetchStockMetrics E stockSymbol w.
Proof.
  intros Hf. unfold getStockMetrics, bind, stockCache_get, Date_now.
  destruct (stockCache w !! stockSymbol) as [c |]; [| reflexivity].
  rewrite Hf. reflexivity.
Qed.

Lemma fresh_true cached t :
  fresh cached t = true ->
  exists c, cached = Some c /\ (t - timestamp c < CACHE_TTL)%Z.
Proof.
  destruct cached as [c |]; simpl; [| discriminate].
  intros H. apply Z.ltb_lt in H. eauto.
Qed.

(** *** Strings *)

Lemma trimStart_nil s :
  trimStart s = [] <-> Forall (fun c => isWhiteSpace c = true) s.
Proof.
  induction s as [| c r IH]; simpl.
  - split; [constructor | reflexivity].
  - destruct (isWhiteSpace c) eqn:Hc.
    + rewrite IH. split; [intros H; constructor; assumption |].
      intros H. inversion H. assumption.
    + split; [discriminate |]. intros H. inversion H. congruence.
Qed.

Lemma trimStart_idem s : trimStart (trimStart s) = trimStart s.
Proof.
  induction s as [| c r IH]; simpl; [reflexivity |].
  destruct (isWhiteSpace c) eqn:Hc; [exact IH |]. simpl. rewrite Hc. reflexivity.
Qed.

Lemma trim_nil s : trim s = [] <-> Forall (fun c => isWhiteSpace c = true) s.
Proof.
  unfold trim, trimEnd. rewrite <- trimStart_nil. split.
  - intros H. apply (f_equal (@rev N)) in H. rewrite rev_involutive in H.
    simpl in H. apply trimStart_nil in H. apply Forall_rev in H.
    rewrite rev_involutive in H. apply trimStart_nil in H.
    rewrite trimStart_idem in H. exact H.
  - intros ->. reflexivity.
Qed.

(** The reply is rejected as empty exactly when it is empty or made of
    white space only. *)
Lemma blank_iff text :
  blank text = true <-> Forall (fun c => isWhiteSpace c = true) text.
Proof.
  rewrite <- trim_nil. unfold blank. simpl ToBoolean. rewrite negb_involutive.
  split.
  - intros H. apply orb_true_iff in H as [H | H].
    + apply Nat.eqb_eq in H. destruct text; [reflexivity | discriminate H].
    + apply Nat.eqb_eq in H. destruct (trim text); [reflexivity | discriminate H].
  - intros ->. apply orb_true_r.
Qed.

Lemma fromFirst_app c pre rest :
  c ∉ pre -> fromFirst c (pre ++ c :: rest) = Some (c :: rest).
Proof.
  induction pre as [| x pre IH]; simpl; intros Hn.
  - rewrite N.eqb_refl. reflexivity.
  - destruct (N.eqb_spec x c) as [-> | _].
    + exfalso. apply Hn. left.
    + apply IH. intros Hin. apply Hn. right. exact Hin.
Qed.

Lemma fromFirst_Some c s t :
  fromFirst c s = Some t ->
  exists pre rest, s = pre ++ c :: rest /\ t = c :: rest /\ c ∉ pre.
Proof.
  induction s as [| x r IH]; simpl; [discriminate |].
  destruct (N.eqb_spec x c) as [-> | Hne]; intros H.
  - injection H as <-. exists [], r. repeat split. apply not_elem_of_nil.
  - destruct (IH H) as (pre & rest & -> & -> & Hn).
    exists (x :: pre), rest. repeat split.
    intros Hin. apply elem_of_cons in Hin as [-> | Hin]; [congruence | auto].
Qed.

Lemma throughLast_None c s : c ∉ s -> throughLast c s = None.
Proof.
  induction s as [| x r IH]; simpl; intros Hn; [reflexivity |].
  rewrite IH by (intros Hin; apply Hn; right; exact Hin).
  destruct (N.eqb_spec x c) as [-> | _]; [| reflexivity].
  exfalso. apply Hn. left.
Qed.

Lemma throughLast_app c body post :
  c ∉ post -> throughLast c (body ++ c :: post) = Some (body ++ [c]).
Proof.
  intros Hn. induction body as [| x body IH]; simpl.
  - rewrite (throughLast_None _ _ Hn), N.eqb_refl. reflexivity.
  - rewrite IH. reflexivity.
Qed.

Lemma throughLast_Some c s p :
  throughLast c s = Some p ->
  exists body post, s = body ++ c :: post /\ p = body ++ [c] /\ c ∉ post.
Proof.
  revert p. induction s as [| x r IH]; simpl; intros p; [discriminate |].
  destruct (throughLast c r) as [p' |] eqn:Hr.
  - intros H. injection H as <-.
    destruct (IH p' eq_refl) as (body & post & -> & -> & Hn).
    exists (x :: body), post. auto.
  - destruct (N.eqb_spec x c) as [-> | _]; intros H; [| discriminate H].
    injection H as <-. exists [], r. repeat split.
    intros Hin. revert Hr. clear -Hin.
    induction r as [| y r IH]; [inversion Hin |]. simpl.
    destruct (throughLast c r) eqn:Hr; [discriminate |].
    destruct (N.eqb_spec y c) as [-> | Hne]; [discriminate |].
    intros _. apply elem_of_cons in Hin as [-> | Hin]; [congruence |].
    apply IH; [exact Hin | reflexivity].
Qed.

(** The match is greedy: it runs from the first opening brace to the last
    closing brace. *)
Lemma match_braces_app pre body post :
  ch "{" ∉ pre -> ch "}" ∉ post ->
  match_braces (pre ++ ch "{" :: body ++ ch "}" :: post)
  = Some (ch "{" :: body ++ [ch "}"]).
Proof.
  intros Hpre Hpost. unfold match_braces.
  rewrite (fromFirst_app _ _ _ Hpre), (throughLast_app _ _ _ Hpost).
  reflexivity.
Qed.

Lemma match_braces_Some text m :
  match_braces text = Some m ->
  exists pre body post,
    text = pre ++ ch "{" :: body ++ ch "}" :: post
    /\ m = ch "{" :: body ++ [ch "}"] /\ (ch "{" ∉ pre) /\ (ch "}" ∉ post).
Proof.
  unfold match_braces.
  destruct (fromFirst (ch "{") text) as [t |] eqn:Hf; [| discriminate].
  destruct (fromFirst_Some _ _ _ Hf) as (pre & rest & -> & -> & Hpre).
  destruct (throughLast (ch "}") rest) as [p |] eqn:Hl; [| discriminate].
  destruct (throughLast_Some _ _ _ Hl) as (body & post & -> & -> & Hpost).
  intros H. injection H as <-. exists pre, body, post. auto.
Qed.

(** *** Outcomes of a retrieval *)

Lemma fetchStockMetrics_Normal E stockSymbol w d w' :
  fetchStockMetrics E stockSymbol w = (Normal d, w') ->
  exists parsed w2,
    accepted (replyTo E stockSymbol w) = Some parsed
    /\ normalize E parsed stockSymbol (called E (StockPrompt stockSymbol) w)
       = (Normal d, w2)
    /\ w' = stored stockSymbol d w2.
Proof.
  rewrite fetchStockMetrics_eq. cbv zeta.
  destruct (accepted (replyTo E stockSymbol w)) as [parsed |]; [| discriminate].
  destruct (normalize E parsed stockSymbol _) as [[d' | e] w2] eqn:Hn;
    [| discriminate].
  intros H. injection H as -> <-. exists parsed, w2. auto.
Qed.

Lemma fetchStockMetrics_Throw E stockSymbol w e w' :
  fetchStockMetrics E stockSymbol w = (Throw e, w') ->
  e = Error (failureMessage stockSymbol)
  /\ stockCache w' = stockCache w
  /\ (accepted (replyTo E stockSymbol w) = None
      \/ exists parsed, accepted (replyTo E stockSymbol w) = Some parsed
                        /\ coercionThrows parsed).
Proof.
  rewrite fetchStockMetrics_eq. cbv zeta.
  destruct (accepted (replyTo E stockSymbol w)) as [parsed |].
  - destruct (normalize E parsed stockSymbol _) as [[d' | e'] w2] eqn:Hn;
      [discriminate |].
    intros H. injection H as <- <-.
    apply normalize_Throw in Hn as ((Hc & _) & _ & Ht).
    split; [reflexivity |]. split; [exact Hc |]. right. eauto.
  - intros H. injection H as <- <-. auto.
Qed.

Lemma fetchStockMetrics_sent E stockSymbol w r w' :
  fetchStockMetrics E stockSymbol w = (r, w') ->
  sent w' = StockPrompt stockSymbol :: sent w
  /\ now w' = (now w + Z.of_N (elapsed E (length (sent w))))%Z.
Proof.
  rewrite fetchStockMetrics_eq. cbv zeta.
  destruct (accepted (replyTo E stockSymbol w)) as [parsed |].
  - destruct (normalize E parsed stockSymbol _) as [[d' | e'] w2] eqn:Hn;
      intros H; injection H as <- <-.
    + apply normalize_Normal in Hn as ((_ & Hnow & Hsent & _) & _).
      simpl. rewrite Hnow, Hsent. auto.
    + apply normalize_Throw in Hn as ((_ & Hnow & Hsent & _) & _).
      rewrite Hnow, Hsent. auto.
  - intros H. injection H as <- <-. auto.
Qed.

Lemma cacheBlind_ret {A} (a : A) : cacheBlind (ret a).
Proof. intros c w. reflexivity. Qed.

Lemma cacheBlind_bind {A B} (m : M A) (k : A -> M B) :
  cacheBlind m -> (forall a, cacheBlind (k a)) -> cacheBlind (bind m k).
Proof.
  intros Hm Hk c w. unfold bind. rewrite Hm.
  destruct (m w) as [[a | e] w1]; simpl; [apply Hk | reflexivity].
Qed.

Lemma cacheBlind_numberOr E v sc off : cacheBlind (numberOr E v sc off).
Proof.
  intros c w. rewrite !numberOr_eq. destruct (ToBoolean v); reflexivity.
Qed.

Lemma cacheBlind_normalize E parsed stockSymbol :
  cacheBlind (normalize E parsed stockSymbol).
Proof.
  unfold normalize.
  repeat (apply cacheBlind_bind; [apply cacheBlind_numberOr | intros ?]).
  apply cacheBlind_ret.
Qed.

(** The result of a retrieval does not depend on what the cache holds. *)
Lemma fetchStockMetrics_blind E stockSymbol c w :
  fst (fetchStockMetrics E stockSymbol (withCache c w))
  = fst (fetchStockMetrics E stockSymbol w).
Proof.
  rewrite !fetchStockMetrics_eq. cbv zeta.
  change (replyTo E stockSymbol (withCache c w)) with (replyTo E stockSymbol w).
  destruct (accepted (replyTo E stockSymbol w)) as [parsed |]; [| reflexivity].
  change (called E (StockPrompt stockSymbol) (withCache c w))
    with (withCache c (called E (StockPrompt stockSymbol) w)).
  rewrite cacheBlind_normalize.
  destruct (normalize E parsed stockSymbol _) as [[d | e] w2]; reflexivity.
Qed.

(** ** The cache *)

(** C1.  When a call of [getStockMetrics] for a symbol has returned a
    record, the cache holds that record under the symbol, stamped, if the
    call had to ask the model, with the time at which the call ended, which
    is not before the time at which it started.  Any later call for the
    same symbol that finds this entry in place, at a time less than five
    minutes after the stamp, returns the same record and leaves the world
    as it is: in particular the list of prompts sent to the model does not
    grow. *)
Theorem cache_hit_within_window E stockSymbol w1 d1 w1' :
  getStockMetrics E stockSymbol w1 = (Normal d1, w1') ->
  exists e,
    stockCache w1' !! stockSymbol = Some e
    /\ data e = d1
    /\ (fresh (stockCache w1 !! stockSymbol) (now w1) = false ->
        timestamp e = now w1' /\ (now w1 <= now w1')%Z)
    /\ forall E2 w2,
         stockCache w2 !! stockSymbol = Some e ->
         (now w2 - timestamp e < CACHE_TTL)%Z ->
         getStockMetrics E2 stockSymbol w2 = (Normal d1, w2)
         /\ sent (snd (getStockMetrics E2 stockSymbol w2)) = sent w2.
Proof.
  intros H.
  destruct (fresh (stockCache w1 !! stockSymbol) (now w1)) eqn:Hf.
  - destruct (fresh_true _ _ Hf) as (c & Hc & Ht).
    rewrite (getStockMetrics_hit _ _ _ _ Hc Ht) in H. injection H as <- <-.
    exists c. split; [exact Hc |]. split; [reflexivity |].
    split; [intros Hm; discriminate Hm |].
    intros E2 w2 He Hw. rewrite (getStockMetrics_hit E2 _ _ _ He Hw).
    split; reflexivity.
  - rewrite (getStockMetrics_miss _ _ _ Hf) in H.
    pose proof (fetchStockMetrics_sent _ _ _ _ _ H) as [_ Hnow].
    apply fetchStockMetrics_Normal in H as (parsed & w2 & _ & _ & ->).
    exists {| data := d1; timestamp := now w2 |}.
    split; [apply lookup_insert_eq |]. split; [reflexivity |].
    split; [intros _; simpl in *; split; [reflexivity | lia] |].
    intros E2 w3 He Hw. rewrite (getStockMetrics_hit E2 _ _ _ He Hw).
    split; reflexivity.
Qed.

Lemma cache_hit_within_window_witness :
  getStockMetrics unreachable (str "ACME") (later 299999 acmeCached)
  = (Normal acmeRecord, later 299999 acmeCached).
Proof.
  assert (H : getStockMetrics (answering acmeReply) (str "ACME") (started 0)
              = (Normal acmeRecord, acmeCached)) by (vm_compute; reflexivity).
  destruct (cache_hit_within_window _ _ _ _ _ H) as (e & He & _ & Ht & Hhit).
  apply (Hhit unreachable (later 299999 acmeCached)).
  - exact He.
  - rewrite (proj1 (Ht eq_refl)). vm_compute. reflexivity.
Defined.

(** A call that is served from the cache does not renew the entry: the
    window still runs from the time the entry was stored.  Here the entry
    is four minutes old at a first call, which is served, and six minutes
    old at a second call two minutes later, which asks the model. *)
Example served_entry_keeps_its_stamp :
  let E := answering acmeReply in
  let w1 := later 240000 acmeCached in
  getStockMetrics E (str "ACME") w1 = (Normal acmeRecord, w1)
  /\ sent (snd (getStockMetrics E (str "ACME") (later 120000 w1)))
     = StockPrompt (str "ACME") :: sent w1.
Proof. vm_compute. split; reflexivity. Qed.

(** C4.  A call of [getStockMetrics] that throws leaves the cache as it
    found it: no entry is written and none is overwritten. *)
Theorem failure_leaves_cache E stockSymbol w e w' :
  getStockMetrics E stockSymbol w = (Throw e, w') ->
  stockCache w' = stockCache w.
Proof.
  intros H.
  destruct (fresh (stockCache w !! stockSymbol) (now w)) eqn:Hf.
  - destruct (fresh_true _ _ Hf) as (c & Hc & Ht).
    rewrite (getStockMetrics_hit _ _ _ _ Hc Ht) in H. discriminate H.
  - rewrite (getStockMetrics_miss _ _ _ Hf) in H.
    apply fetchStockMetrics_Throw in H as (_ & Hc & _). exact Hc.
Qed.

Lemma failure_leaves_cache_witness :
  stockCache (snd (getStockMetrics (answering []) (str "ACME")
                                   (later 300000 acmeCached)))
  = stockCache (later 300000 acmeCached)
  /\ stockCache (snd (getStockMetrics
                        (answering (str "I cannot help with that."))
                        (str "TCS") acmeCached))
     = stockCache acmeCached.
Proof.
  split.
  - apply (failure_leaves_cache (answering []) (str "ACME")
             (later 300000 acmeCached) (Error (failureMessage (str "ACME")))).
    vm_compute. reflexivity.
  - apply (failure_leaves_cache (answering (str "I cannot help with that."))
             (str "TCS") acmeCached (Error (failureMessage (str "TCS")))).
    vm_compute. reflexivity.
Defined.

(** C8.  The freshness window is 300000 ms.  An entry is served only while
    [now - timestamp] is strictly below it.  From then on the entry counts
    for nothing: the call gives what it would give with the entry removed,
    and asks the model.  The entry itself stays as it is if that call
    fails; if the call returns a record, the entry is replaced by that
    record, stamped with the time of the replacement, which is later than
    the old stamp. *)
Theorem stale_entry_refreshed E stockSymbol w c :
  stockCache w !! stockSymbol = Some c ->
  CACHE_TTL = 300000%Z
  /\ ((now w - timestamp c < CACHE_TTL)%Z ->
      getStockMetrics E stockSymbol w = (Normal (data c), w))
  /\ ((CACHE_TTL <= now w - timestamp c)%Z ->
      fst (getStockMetrics E stockSymbol w)
      = fst (getStockMetrics E stockSymbol
               (withCache (delete stockSymbol (stockCache w)) w))
      /\ sent (snd (getStockMetrics E stockSymbol w))
         = StockPrompt stockSymbol :: sent w
      /\ (forall e w', getStockMetrics E stockSymbol w = (Throw e, w') ->
                       stockCache w' = stockCache w)
      /\ (forall d w', getStockMetrics E stockSymbol w = (Normal d, w') ->
            stockCache w'
            = <[stockSymbol := {| data := d; timestamp := now w' |}]> (stockCache w)
            /\ (timestamp c < now w')%Z)).
Proof.
  intros Hc. split; [reflexivity |]. split.
  - apply getStockMetrics_hit. exact Hc.
  - intros Hs.
    assert (Hf : fresh (stockCache w !! stockSymbol) (now w) = false).
    { rewrite Hc. simpl. apply Z.ltb_ge. exact Hs. }
    rewrite (getStockMetrics_miss _ _ _ Hf).
    rewrite getStockMetrics_miss
      by (simpl; rewrite lookup_delete_eq; reflexivity).
    split; [symmetry; apply fetchStockMetrics_blind |].
    split; [| split].
    + destruct (fetchStockMetrics E stockSymbol w) as [r w'] eqn:Hr.
      apply (fetchStockMetrics_sent _ _ _ _ _ Hr).
    + intros e w' H. apply fetchStockMetrics_Throw in H as (_ & H & _). exact H.
    + intros d w' H. pose proof (fetchStockMetrics_sent _ _ _ _ _ H) as [_ Hnow].
      apply fetchStockMetrics_Normal in H as (parsed & w2 & _ & Hn & ->).
      apply normalize_Normal in Hn as ((Hcache & _) & _).
      simpl in *. rewrite Hcache. split; [reflexivity |].
      unfold CACHE_TTL in Hs. lia.
Qed.

Lemma stale_entry_refreshed_witness :
  sent (snd (getStockMetrics (answering acmeReply) (str "ACME")
                             (later 300000 acmeCached)))
  = StockPrompt (str "ACME") :: sent (later 300000 acmeCached).
Proof.
  assert (Hc : stockCache (later 300000 acmeCached) !! str "ACME" = Some acmeEntry)
    by (vm_compute; reflexivity).
  destruct (stale_entry_refreshed (answering acmeReply) _ _ _ Hc)
    as (_ & _ & Hstale).
  apply Hstale. vm_compute. discriminate.
Defined.

(** ** Parsing the reply *)

(** C2, as stated, fails on two replies.  In the first, a JSON array of two
    strings, the braces are inside the strings: the text between them is
    not JSON, the entire reply is, and the code does not fall back to it.
    In the second, two objects follow each other: the first top-level span
    is the first object and parses, but the code parses the text from the
    first opening brace to the last closing brace, which does not. *)
Lemma parse_as_stated_counterexample :
  (statedParse (js "['{','}']") = Some (VArr [VStr (str "{"); VStr (str "}")])
   /\ parsedValue (js "['{','}']") = None
   /\ fst (parseReply (js "['{','}']") (started 0)) = Throw invalidJson
   /\ fst (getStockMetrics (answering (js "['{','}']")) (str "ACME") (started 0))
      = Throw (Error (failureMessage (str "ACME"))))
  /\ (firstTopLevelSpan (js "{'a':1} {'b':2}") = Some (js "{'a':1}")
      /\ statedParse (js "{'a':1} {'b':2}")
         = Some (VObj [(str "a", VNum (Num (scientific 1 0)))])
      /\ parsedValue (js "{'a':1} {'b':2}") = None
      /\ fst (parseReply (js "{'a':1} {'b':2}") (started 0)) = Throw invalidJson).
Proof. vm_compute. repeat split; reflexivity. Qed.

(** C2, amended.  The text handed to [JSON.parse] is the part of the reply
    from its first opening brace to its last closing brace, when an opening
    brace is followed somewhere by a closing brace, and the entire reply
    otherwise.  It is parsed once: the parse succeeds with the value of
    that text, or fails with the one error, and the world is not touched. *)
Theorem parse_greedy_span text w :
  parseReply text w
  = (match JSON_parse_text (candidate text) with
     | Some parsed => Normal parsed
     | None => Throw invalidJson
     end, w)
  /\ (forall pre body post,
        text = pre ++ ch "{" :: body ++ ch "}" :: post ->
        ch "{" ∉ pre -> ch "}" ∉ post ->
        candidate text = ch "{" :: body ++ [ch "}"])
  /\ ((forall pre body post, text <> pre ++ ch "{" :: body ++ ch "}" :: post) ->
      candidate text = text).
Proof.
  split; [| split].
  - unfold parseReply, candidate, try_catch, JSON_parse, invalidJson.
    destruct (match_braces text) as [jsonStr |]; simpl;
      destruct (JSON_parse_text _); reflexivity.
  - intros pre body post -> Hpre Hpost. unfold candidate.
    rewrite (match_braces_app _ _ _ Hpre Hpost). reflexivity.
  - intros Hno. unfold candidate.
    destruct (match_braces text) as [m |] eqn:Hm; [| reflexivity].
    destruct (match_braces_Some _ _ Hm) as (pre & body & post & Ht & _).
    exfalso. exact (Hno _ _ _ Ht).
Qed.

Lemma parse_greedy_span_witness :
  candidate acmeReply = js "{'stockName':'Acme','symbol':'ACME','currentPrice':42}"
  /\ candidate (str "I cannot help with that.") = str "I cannot help with that.".
Proof.
  split.
  - apply (proj1 (proj2 (parse_greedy_span acmeReply (started 0)))
             (str "Sure! ")
             (js "'stockName':'Acme','symbol':'ACME','currentPrice':42") []).
    + vm_compute. reflexivity.
    + vm_compute. intros H. repeat (apply elem_of_cons in H as [H | H];
        [discriminate H |]). inversion H.
    + apply not_elem_of_nil.
  - apply (proj2 (proj2 (parse_greedy_span (str "I cannot help with that.")
                           (started 0)))).
    intros pre body post H.
    assert (Hin : ch "{" ∈ str "I cannot help with that.").
    { rewrite H. apply elem_of_app. right. left. }
    vm_compute in Hin. repeat (apply elem_of_cons in Hin as [Hin | Hin];
      [discriminate Hin |]). inversion Hin.
Defined.

(** ** Failures *)

Lemma accepted_None_iff r : accepted r = None <-> statedFailure r.
Proof.
  destruct r as [| result]; simpl; [tauto |].
  rewrite <- blank_iff. unfold parsedValue.
  destruct (blank (default [] result)); [tauto |].
  destruct (JSON_parse_text (candidate (default [] result))) as [parsed |].
  - destruct (isObject parsed) eqn:Ho.
    + split; [discriminate |].
      intros [H | [H | (p & H & Hp)]]; try discriminate H. congruence.
    + split; [| reflexivity]. intros _. right. right. eauto.
  - split; [auto | reflexivity].
Qed.

(** C3, as stated, fails: the reply below comes from a call that succeeded,
    is not blank, parses, and parses to an object, yet the retrieval
    throws, because [Number] throws a [TypeError] on the object under
    [roe], whose own [toString] is not a function. *)
Lemma failure_as_stated_counterexample :
  ~ (throws (getStockMetrics (answering shadowedReply) (str "ACME")) (started 0)
     <-> statedFailure (replyTo (answering shadowedReply) (str "ACME") (started 0))).
Proof.
  intros [Hfail _].
  assert (Ht : throws (getStockMetrics (answering shadowedReply) (str "ACME"))
                      (started 0)).
  { eexists _, _. vm_compute. reflexivity. }
  apply Hfail, accepted_None_iff in Ht. vm_compute in Ht. discriminate Ht.
Qed.

(** C3, amended.  [getStockMetrics] throws exactly when the cache has no
    fresh entry for the symbol and either one of the four listed causes
    holds or the reply is accepted and the conversion of one of its numeric
    properties throws.  Whatever the cause, what is thrown is the one error
    whose message contains the symbol. *)
Theorem retrieval_fails_iff E stockSymbol w :
  (throws (getStockMetrics E stockSymbol) w <->
   fresh (stockCache w !! stockSymbol) (now w) = false
   /\ (statedFailure (replyTo E stockSymbol w)
       \/ exists parsed, accepted (replyTo E stockSymbol w) = Some parsed
                         /\ coercionThrows parsed))
  /\ (forall e w', getStockMetrics E stockSymbol w = (Throw e, w') ->
                   e = Error (failureMessage stockSymbol))
  /\ occursIn stockSymbol (failureMessage stockSymbol).
Proof.
  split; [| split].
  - destruct (fresh (stockCache w !! stockSymbol) (now w)) eqn:Hf.
    + destruct (fresh_true _ _ Hf) as (c & Hc & Ht).
      unfold throws. rewrite (getStockMetrics_hit _ _ _ _ Hc Ht).
      split; [intros (e & w' & H); discriminate H | intros [H _]; discriminate H].
    + unfold throws. rewrite (getStockMetrics_miss _ _ _ Hf).
      rewrite <- accepted_None_iff. split.
      * intros (e & w' & H). split; [reflexivity |].
        apply fetchStockMetrics_Throw in H as (_ & _ & H). exact H.
      * intros [_ H]. rewrite fetchStockMetrics_eq. cbv zeta.
        destruct H as [-> | (parsed & -> & f & Hf')]; [eauto |].
        destruct (normalize E parsed stockSymbol _) as [[d | e] w2] eqn:Hn;
          [| eauto].
        exfalso. apply normalize_Normal in Hn as (_ & _ & _ & Hout).
        specialize (Hout f). unfold fieldOutcome in Hout.
        destruct (Number_cases (Get parsed (key f))) as [[_ Hn] | [Hn _]];
          [| congruence].
        rewrite (toStringThrows_truthy _ Hf'), Hn in Hout. discriminate Hout.
  - intros e w' H.
    destruct (fresh (stockCache w !! stockSymbol) (now w)) eqn:Hf.
    + destruct (fresh_true _ _ Hf) as (c & Hc & Ht).
      rewrite (getStockMetrics_hit _ _ _ _ Hc Ht) in H. discriminate H.
    + rewrite (getStockMetrics_miss _ _ _ Hf) in H.
      apply fetchStockMetrics_Throw in H as (H & _). exact H.
  - exists (str "Failed to retrieve real-time data for "),
      (str ". Please ensure the symbol is valid and try again.").
    reflexivity.
Qed.

Lemma retrieval_fails_iff_witness :
  fst (getStockMetrics unreachable (str "ACME") (started 0))
  = Throw (Error (failureMessage (str "ACME"))).
Proof.
  destruct (getStockMetrics unreachable (str "ACME") (started 0))
    as [[d | e] w'] eqn:H; [vm_compute in H; discriminate H |].
  simpl. f_equal.
  exact (proj1 (proj2 (retrieval_fails_iff unreachable (str "ACME") (started 0)))
           e w' H).
Defined.

(** ** The numeric fields *)

Lemma isZero_iff q : isZero q = true <-> (q == 0)%Q.
Proof.
  unfold isZero, Qeq. simpl. rewrite Z.eqb_eq. lia.
Qed.

Lemma placeholder_inRange f r :
  (0 <= r /\ r < 1)%Q ->
  inRange (documentedRange f) (r * scale f + offset f).
Proof.
  intros [H0 H1]. unfold inRange. destruct f; simpl; lra.
Qed.

(** A retrieval that asks the model and returns a record: each numeric
    field comes out of the accepted reply as [fieldOutcome] says. *)
Lemma retrieved_fields E stockSymbol w parsed d w' :
  fresh (stockCache w !! stockSymbol) (now w) = false ->
  accepted (replyTo E stockSymbol w) = Some parsed ->
  getStockMetrics E stockSymbol w = (Normal d, w') ->
  forall f, fieldOutcome E (drawn w) (drawn w') (Get parsed (key f))
                         (scale f) (offset f) (field f d).
Proof.
  intros Hf Ha H. rewrite (getStockMetrics_miss _ _ _ Hf) in H.
  apply fetchStockMetrics_Normal in H as (parsed' & w2 & Ha' & Hn & ->).
  assert (parsed' = parsed) as -> by congruence.
  apply normalize_Normal in Hn as (_ & _ & _ & Hout). exact Hout.
Qed.

(** C5.  When a reply is accepted and the retrieval returns a record, each
    numeric field of the record is the conversion to a number of the
    corresponding property of the reply if that property is truthy, and
    otherwise is [r * scale + offset] for [r] a result of [Math.random()]
    drawn during the call; [r] being at least 0 and less than 1, that
    placeholder lies in the range documented for the field. *)
Theorem numeric_field_coerced_or_placeholder E stockSymbol w parsed d w' :
  unitRandom E ->
  fresh (stockCache w !! stockSymbol) (now w) = false ->
  accepted (replyTo E stockSymbol w) = Some parsed ->
  getStockMetrics E stockSymbol w = (Normal d, w') ->
  forall f,
    if ToBoolean (Get parsed (key f))
    then Number (Get parsed (key f)) = Normal (field f d)
    else exists k,
           (drawn w <= k < drawn w')%nat
           /\ field f d = Num (random E k * scale f + offset f)
           /\ inRange (documentedRange f) (random E k * scale f + offset f).
Proof.
  intros Hr Hf Ha H f.
  pose proof (retrieved_fields _ _ _ _ _ _ Hf Ha H f) as Hout.
  unfold fieldOutcome in Hout.
  destruct (ToBoolean (Get parsed (key f))); [exact Hout |].
  destruct Hout as (k & Hk & Hx). exists k.
  split; [exact Hk |]. split; [exact Hx |].
  apply placeholder_inRange, Hr.
Qed.

Lemma answering_unitRandom text : unitRandom (answering text).
Proof. intros k. simpl. split; [discriminate | reflexivity]. Defined.

Lemma numeric_field_coerced_or_placeholder_witness :
  Number (VStr (str "12.5"))
  = Normal (peRatio (data (default acmeEntry
      (stockCache (snd (getStockMetrics (answering mixedReply) (str "ACME")
                          (started 0))) !! str "ACME")))).
Proof.
  destruct (getStockMetrics (answering mixedReply) (str "ACME") (started 0))
    as [[d | e] w'] eqn:H; [| vm_compute in H; discriminate H].
  assert (Hd : data (default acmeEntry (stockCache w' !! str "ACME")) = d).
  { vm_compute in H. injection H as <- <-. vm_compute. reflexivity. }
  simpl snd. rewrite Hd.
  assert (Ha : accepted (replyTo (answering mixedReply) (str "ACME") (started 0))
               = Some (VObj [(str "currentPrice", VNum (Num (scientific 0 0)));
                              (str "dayHigh", VNull);
                              (str "dayLow", VStr []);
                              (str "peRatio", VStr (str "12.5"));
                              (str "roe", VStr (str "N/A"))]))
    by (vm_compute; reflexivity).
  exact (numeric_field_coerced_or_placeholder (answering mixedReply) (str "ACME")
           (started 0) _ d w' (answering_unitRandom mixedReply) eq_refl Ha H
           PeRatio).
Defined.

(** C6.  When the property of the reply for a numeric field is the number
    0, the field of the returned record is not 0: it is a placeholder
    [r * scale + offset] in the range documented for the field. *)
Theorem zero_replaced_by_placeholder E stockSymbol w parsed d w' f q :
  unitRandom E ->
  fresh (stockCache w !! stockSymbol) (now w) = false ->
  accepted (replyTo E stockSymbol w) = Some parsed ->
  getStockMetrics E stockSymbol w = (Normal d, w') ->
  Get parsed (key f) = VNum (Num q) ->
  (q == 0)%Q ->
  exists k,
    (drawn w <= k < drawn w')%nat
    /\ field f d = Num (random E k * scale f + offset f)
    /\ inRange (documentedRange f) (random E k * scale f + offset f)
    /\ ~ (random E k * scale f + offset f == 0)%Q.
Proof.
  intros Hr Hf Ha H Hv Hq.
  pose proof (retrieved_fields _ _ _ _ _ _ Hf Ha H f) as Hout.
  unfold fieldOutcome in Hout. rewrite Hv in Hout. simpl in Hout.
  apply isZero_iff in Hq. rewrite Hq in Hout. simpl in Hout.
  destruct Hout as (k & Hk & Hx). exists k.
  split; [exact Hk |]. split; [exact Hx |].
  pose proof (placeholder_inRange f _ (Hr k)) as Hin.
  split; [exact Hin |].
  unfold inRange in Hin. destruct f; simpl in *; lra.
Qed.

Lemma zero_replaced_by_placeholder_witness :
  exists k,
    currentPrice (data (default acmeEntry
      (stockCache (snd (getStockMetrics (answering mixedReply) (str "ACME")
                          (started 0))) !! str "ACME")))
    = Num (random (answering mixedReply) k * 100 + 50).
Proof.
  destruct (getStockMetrics (answering mixedReply) (str "ACME") (started 0))
    as [[d | e] w'] eqn:H; [| vm_compute in H; discriminate H].
  assert (Hd : data (default acmeEntry (stockCache w' !! str "ACME")) = d).
  { vm_compute in H. injection H as <- <-. vm_compute. reflexivity. }
  simpl snd. rewrite Hd.
  assert (Ha : accepted (replyTo (answering mixedReply) (str "ACME") (started 0))
               = Some (VObj [(str "currentPrice", VNum (Num (scientific 0 0)));
                              (str "dayHigh", VNull);
                              (str "dayLow", VStr []);
                              (str "peRatio", VStr (str "12.5"));
                              (str "roe", VStr (str "N/A"))]))
    by (vm_compute; reflexivity).
  destruct (zero_replaced_by_placeholder (answering mixedReply) (str "ACME")
              (started 0) _ d w' CurrentPrice (scientific 0 0)
              (answering_unitRandom mixedReply) eq_refl Ha H eq_refl eq_refl)
    as (k & _ & Hx & _).
  exists k. exact Hx.
Defined.

(** C9, as stated, fails: in the accepted reply below [roe] is present,
    truthy and not numeric, [Number] turning it into [NaN], and yet the
    retrieval does not succeed, because the conversion of [peRatio]
    throws. *)
Lemma non_numeric_as_stated_counterexample :
  accepted (replyTo (answering naReply) (str "ACME") (started 0)) = Some naParsed
  /\ Get naParsed (key Roe) = VStr (str "N/A")
  /\ ToBoolean (Get naParsed (key Roe)) = true
  /\ Number (Get naParsed (key Roe)) = Normal NaN
  /\ fst (getStockMetrics (answering naReply) (str "ACME") (started 0))
     = Throw (Error (failureMessage (str "ACME"))).
Proof. vm_compute. repeat split; reflexivity. Qed.

(** C9, amended.  Take an accepted reply in which the property for a
    numeric field is truthy and is turned into [NaN] by [Number].  Whenever
    the retrieval returns a record, the field of the record is [NaN], not a
    placeholder; and the retrieval does return a record unless the
    conversion of one of the numeric properties throws, in which case it
    fails. *)
Theorem truthy_non_numeric_gives_NaN E stockSymbol w parsed f :
  fresh (stockCache w !! stockSymbol) (now w) = false ->
  accepted (replyTo E stockSymbol w) = Some parsed ->
  ToBoolean (Get parsed (key f)) = true ->
  Number (Get parsed (key f)) = Normal NaN ->
  (forall d w', getStockMetrics E stockSymbol w = (Normal d, w') ->
                field f d = NaN)
  /\ ((forall g, toStringThrows (Get parsed (key g)) = false) ->
      exists d w', getStockMetrics E stockSymbol w = (Normal d, w')
                   /\ field f d = NaN)
  /\ (coercionThrows parsed -> throws (getStockMetrics E stockSymbol) w).
Proof.
  intros Hf Ha Ht Hn.
  assert (Hfield : forall d w', getStockMetrics E stockSymbol w = (Normal d, w') ->
                                field f d = NaN).
  { intros d w' H. pose proof (retrieved_fields _ _ _ _ _ _ Hf Ha H f) as Hout.
    unfold fieldOutcome in Hout. rewrite Ht, Hn in Hout. congruence. }
  split; [exact Hfield |]. split.
  - intros Hok. rewrite (getStockMetrics_miss _ _ _ Hf) in *.
    rewrite fetchStockMetrics_eq in *. cbv zeta in *. rewrite Ha in *.
    destruct (normalize_total E parsed stockSymbol
                (called E (StockPrompt stockSymbol) w) Hok) as (d & w2 & Hd).
    rewrite Hd in *. eauto.
  - intros (g & Hg). unfold throws. rewrite (getStockMetrics_miss _ _ _ Hf).
    rewrite fetchStockMetrics_eq. cbv zeta. rewrite Ha.
    destruct (normalize E parsed stockSymbol _) as [[d | e] w2] eqn:Hd; [| eauto].
    exfalso. apply normalize_Normal in Hd as (_ & _ & _ & Hout).
    specialize (Hout g). unfold fieldOutcome in Hout.
    destruct (Number_cases (Get parsed (key g))) as [[_ Hng] | [Hng _]];
      [| congruence].
    rewrite (toStringThrows_truthy _ Hg), Hng in Hout. discriminate Hout.
Qed.

Lemma truthy_non_numeric_gives_NaN_witness :
  exists d w',
    getStockMetrics (answering mixedReply) (str "ACME") (started 0) = (Normal d, w')
    /\ roe d = NaN.
Proof.
  assert (Ha : accepted (replyTo (answering mixedReply) (str "ACME") (started 0))
               = Some (VObj [(str "currentPrice", VNum (Num (scientific 0 0)));
                              (str "dayHigh", VNull);
                              (str "dayLow", VStr []);
                              (str "peRatio", VStr (str "12.5"));
                              (str "roe", VStr (str "N/A"))]))
    by (vm_compute; reflexivity).
  apply (proj1 (proj2 (truthy_non_numeric_gives_NaN (answering mixedReply)
                         (str "ACME") (started 0) _ Roe eq_refl Ha eq_refl
                         eq_refl))).
  intros g. destruct g; reflexivity.
Defined.

(** ** The shape of the record *)

(** C7, as stated, fails: the record returned for the reply below has the
    boolean [true] for [stockName] and an array for [symbol], neither of
    which is a number or a string. *)
Lemma concrete_fields_counterexample :
  exists d,
    fst (getStockMetrics (answering oddNamesReply) (str "ACME") (started 0))
    = Normal d
    /\ stockName d = VBool true
    /\ symbol d = VArr [VStr (str "X")]
    /\ typeof (stockName d) = TBoolean
    /\ typeof (symbol d) = TObject.
Proof. eexists. vm_compute. repeat split; reflexivity. Qed.

Lemma js_or_defined a s : nullish (js_or a (VStr s)) = false.
Proof.
  unfold js_or. destruct (ToBoolean a) eqn:Ha; [| reflexivity].
  destruct a; try reflexivity; discriminate Ha.
Qed.

Lemma js_or_defined2 a b s : nullish (js_or a (js_or b (VStr s))) = false.
Proof.
  unfold js_or at 1. destruct (ToBoolean a) eqn:Ha; [| apply js_or_defined].
  destruct a; try reflexivity; discriminate Ha.
Qed.

(** C7, amended.  In a record returned by [getStockMetrics] no field is
    [null] or [undefined]: the eight numeric fields are numbers ([NaN] and
    the infinities are numbers), which the type of the record says, and
    [stockName] and [symbol] are the symbol the function was given or a
    truthy value of the reply, of whatever type.  The statement is an
    invariant of the cache, which is empty when the process starts: it holds
    of the record returned, served from the cache or not, and of every
    entry of the cache afterwards. *)
Theorem fields_never_nullish E stockSymbol w d w' :
  cacheDefined (stockCache w) ->
  getStockMetrics E stockSymbol w = (Normal d, w') ->
  defined d /\ cacheDefined (stockCache w').
Proof.
  intros Hinv H.
  destruct (fresh (stockCache w !! stockSymbol) (now w)) eqn:Hf.
  - destruct (fresh_true _ _ Hf) as (c & Hc & Ht).
    rewrite (getStockMetrics_hit _ _ _ _ Hc Ht) in H. injection H as <- <-.
    split; [exact (Hinv _ _ Hc) | exact Hinv].
  - rewrite (getStockMetrics_miss _ _ _ Hf) in H.
    apply fetchStockMetrics_Normal in H as (parsed & w2 & _ & Hn & ->).
    apply normalize_Normal in Hn as ((Hc & _) & Hname & Hsym & _).
    assert (Hd : defined d).
    { unfold defined. rewrite Hname, Hsym.
      split; [apply js_or_defined2 | apply js_or_defined]. }
    split; [exact Hd |]. intros k e. simpl. rewrite Hc.
    destruct (decide (stockSymbol = k)) as [-> | Hne].
    + rewrite lookup_insert_eq. intros He. injection He as <-. exact Hd.
    + rewrite lookup_insert_ne by exact Hne. apply Hinv.
Qed.

Lemma fields_never_nullish_witness :
  defined acmeRecord /\ cacheDefined (stockCache acmeCached).
Proof.
  apply (fields_never_nullish (answering acmeReply) (str "ACME") (started 0)).
  - intros k e H. simpl in H. rewrite lookup_empty in H. discriminate H.
  - vm_compute. reflexivity.
Defined.

(** ** The keys of the cache *)

Lemma toUpperCase_idem s : toUpperCase (toUpperCase s) = toUpperCase s.
Proof.
  unfold toUpperCase. rewrite map_map. apply map_ext. intros c.
  destruct ((97 <=? c) && (c <=? 122)) eqn:Hc; [| rewrite Hc; reflexivity].
  apply andb_true_iff in Hc as [H1 H2].
  apply N.leb_le in H1. apply N.leb_le in H2.
  destruct (97 <=? c - 32) eqn:H3; [| reflexivity].
  apply N.leb_le in H3. lia.
Qed.

Lemma getStockMetrics_cache E stockSymbol w r w' :
  getStockMetrics E stockSymbol w = (r, w') ->
  stockCache w' = stockCache w
  \/ exists e, stockCache w' = <[stockSymbol := e]> (stockCache w).
Proof.
  intros H. destruct r as [d | e].
  - destruct (fresh (stockCache w !! stockSymbol) (now w)) eqn:Hf.
    + destruct (fresh_true _ _ Hf) as (c & Hc & Ht).
      rewrite (getStockMetrics_hit _ _ _ _ Hc Ht) in H. injection H as <- <-.
      left. reflexivity.
    + rewrite (getStockMetrics_miss _ _ _ Hf) in H.
      apply fetchStockMetrics_Normal in H as (parsed & w2 & _ & Hn & ->).
      apply normalize_Normal in Hn as ((Hc & _) & _).
      right. simpl. rewrite Hc. eauto.
  - left. destruct (fresh (stockCache w !! stockSymbol) (now w)) eqn:Hf.
    + destruct (fresh_true _ _ Hf) as (c & Hc & Ht).
      rewrite (getStockMetrics_hit _ _ _ _ Hc Ht) in H. discriminate H.
    + rewrite (getStockMetrics_miss _ _ _ Hf) in H.
      apply fetchStockMetrics_Throw in H as (_ & H & _). exact H.
Qed.

Lemma getStockMetrics_stored E stockSymbol w d w' :
  getStockMetrics E stockSymbol w = (Normal d, w') ->
  exists e, stockCache w' !! stockSymbol = Some e /\ data e = d.
Proof.
  intros H. destruct (fresh (stockCache w !! stockSymbol) (now w)) eqn:Hf.
  - destruct (fresh_true _ _ Hf) as (c & Hc & Ht).
    rewrite (getStockMetrics_hit _ _ _ _ Hc Ht) in H. injection H as <- <-.
    eauto.
  - rewrite (getStockMetrics_miss _ _ _ Hf) in H.
    apply fetchStockMetrics_Normal in H as (parsed & w2 & _ & _ & ->).
    eexists. split; [apply lookup_insert_eq | reflexivity].
Qed.

Lemma stockRoute_world E param w :
  snd (stockRoute E param w) = snd (getStockMetrics E (toUpperCase param) w).
Proof.
  unfold stockRoute.
  destruct (getStockMetrics E (toUpperCase param) w) as [[d | e] w']; reflexivity.
Qed.

Lemma analyzeRoute_cache E param w :
  stockCache (snd (analyzeRoute E param w))
  = stockCache (snd (getStockMetrics E (toUpperCase param) w)).
Proof.
  unfold analyzeRoute, bind.
  destruct (getStockMetrics E (toUpperCase param) w) as [[d | e] w']; simpl;
    [| reflexivity].
  destruct (toStringThrows (stockName d)); simpl; [reflexivity |].
  unfold model_generateContent.
  destruct (generateContent E _ _) as [| [text |]]; reflexivity.
Qed.

Lemma upperKeys_getStockMetrics E param w :
  upperKeys (stockCache w) ->
  upperKeys (stockCache (snd (getStockMetrics E (toUpperCase param) w))).
Proof.
  intros Hu.
  destruct (getStockMetrics E (toUpperCase param) w) as [r w'] eqn:H.
  simpl snd. apply getStockMetrics_cache in H as [-> | [e ->]]; [exact Hu |].
  intros k e'. destruct (decide (toUpperCase param = k)) as [<- | Hne].
  - intros _. apply toUpperCase_idem.
  - rewrite lookup_insert_ne by exact Hne. apply Hu.
Qed.

(** C10.  [getStockMetrics] reads and writes the entry under the very
    string it is given and no other.  The strings aapl and AAPL are two
    keys: after a retrieval for the first, the second is still missing and
    a call for it asks the model again.  Both routes pass the path
    parameter through [toUpperCase] before they call [getStockMetrics]:
    that is why the two spellings share one entry there, and why the
    routes keep every key of the cache in upper case. *)
Theorem cache_keyed_by_given_string :
  (forall E stockSymbol w r w' k,
      getStockMetrics E stockSymbol w = (r, w') -> k <> stockSymbol ->
      stockCache w' !! k = stockCache w !! k)
  /\ (forall E stockSymbol w d w',
        getStockMetrics E stockSymbol w = (Normal d, w') ->
        exists e, stockCache w' !! stockSymbol = Some e /\ data e = d)
  /\ (let E := answering acmeReply in
      let w1 := snd (getStockMetrics E (str "aapl") (started 0)) in
      stockCache w1 !! str "aapl"
      = Some acmeEntry
      /\ stockCache w1 !! str "AAPL" = None
      /\ sent (snd (getStockMetrics E (str "AAPL") w1))
         = [StockPrompt (str "AAPL"); StockPrompt (str "aapl")])
  /\ (forall E param w,
        snd (stockRoute E param w)
        = snd (getStockMetrics E (toUpperCase param) w)
        /\ stockCache (snd (analyzeRoute E param w))
           = stockCache (snd (getStockMetrics E (toUpperCase param) w)))
  /\ (let E := answering acmeReply in
      let w1 := snd (stockRoute E (str "aapl") (started 0)) in
      toUpperCase (str "aapl") = str "AAPL"
      /\ stockCache w1 !! str "AAPL"
         = Some acmeEntry
      /\ sent (snd (stockRoute E (str "AAPL") w1)) = [StockPrompt (str "AAPL")])
  /\ (forall E param w,
        upperKeys (stockCache w) ->
        upperKeys (stockCache (snd (stockRoute E param w)))
        /\ upperKeys (stockCache (snd (analyzeRoute E param w)))).
Proof.
  split; [| split; [| split; [| split; [| split]]]].
  - intros E stockSymbol w r w' k H Hne.
    apply getStockMetrics_cache in H as [-> | [e ->]]; [reflexivity |].
    apply lookup_insert_ne. congruence.
  - apply getStockMetrics_stored.
  - vm_compute. repeat split; reflexivity.
  - intros E param w. split; [apply stockRoute_world | apply analyzeRoute_cache].
  - vm_compute. repeat split; reflexivity.
  - intros E param w Hu. rewrite stockRoute_world, analyzeRoute_cache.
    split; apply upperKeys_getStockMetrics; exact Hu.
Qed.

Lemma cache_keyed_by_given_string_witness :
  upperKeys (stockCache (snd (stockRoute (answering acmeReply) (str "aapl")
                                         (started 0))))
  /\ upperKeys (stockCache (snd (analyzeRoute (answering acmeReply) (str "aapl")
                                              (started 0)))).
Proof.
  apply (proj2 (proj2 (proj2 (proj2 (proj2 cache_keyed_by_given_string))))
           (answering acmeReply) (str "aapl") (started 0)).
  intros k e H. simpl in H. rewrite lookup_empty in H. discriminate H.
Defined.


(** ** More on the retrieval *)

Lemma numberOr_draw E v sc off w x w' :
  numberOr E v sc off w = (Normal x, w') ->
  drawn w' = (drawn w + (if ToBoolean v then 0 else 1))%nat
  /\ (ToBoolean v = false -> x = Num (random E (drawn w) * sc + off)).
Proof.
  rewrite numberOr_eq. destruct (ToBoolean v); intros H.
  - injection H as _ <-. split; [lia | discriminate].
  - injection H as <- <-. simpl. split; [lia | reflexivity].
Qed.

Ltac step_draw H x w1 D1 P1 :=
  apply bind_Normal in H as (x & w1 & D1 & H);
  apply numberOr_draw in D1 as [D1 P1].

Lemma normalize_draws E parsed stockSymbol w d w' :
  normalize E parsed stockSymbol w = (Normal d, w') ->
  drawn w' = (drawn w + drawsOf parsed fieldOrder)%nat
  /\ forall f,
       ToBoolean (Get parsed (key f)) = false ->
       field f d
       = Num (random E (drawn w + drawsBefore parsed f fieldOrder)
              * scale f + offset f).
Proof.
  unfold normalize. intros H.
  step_draw H x1 w1 D1 P1. step_draw H x2 w2 D2 P2.
  step_draw H x3 w3 D3 P3. step_draw H x4 w4 D4 P4.
  step_draw H x5 w5 D5 P5. step_draw H x6 w6 D6 P6.
  step_draw H x7 w7 D7 P7. step_draw H x8 w8 D8 P8.
  unfold ret in H. injection H as <- <-.
  split.
  - unfold fieldOrder, drawsOf, draws, key. lia.
  - intros f Hf. destruct f; simpl field; simpl scale; simpl offset;
      unfold fieldOrder, drawsBefore, NumericField_eqb, draws, key;
      match goal with
      | P : ToBoolean ?v = false -> ?x = _ |- ?x = _ =>
          rewrite (P Hf); do 4 f_equal; lia
      end.
Qed.

(** [numberOr] reads the environment only through the draw it makes, and
    makes none for a truthy value. *)
Lemma numberOr_ext E1 E2 v sc off w :
  ToBoolean v = true \/ random E1 (drawn w) = random E2 (drawn w) ->
  numberOr E1 v sc off w = numberOr E2 v sc off w.
Proof.
  rewrite !numberOr_eq. destruct (ToBoolean v); [reflexivity |].
  intros [H | H]; [discriminate H | rewrite H; reflexivity].
Qed.

Ltac step_ext E1 E2 tac :=
  match goal with
  | |- context [numberOr E1 ?v ?sc ?off ?w] =>
      rewrite (numberOr_ext E1 E2 v sc off w) by tac;
      destruct (numberOr E2 v sc off w) as [[? | ?] ?]; [| reflexivity]
  end.

Lemma normalize_ext E1 E2 parsed stockSymbol w :
  (forall f, ToBoolean (Get parsed (key f)) = true)
  \/ (forall k, random E1 k = random E2 k) ->
  normalize E1 parsed stockSymbol w = normalize E2 parsed stockSymbol w.
Proof.
  intros H. unfold normalize, bind.
  assert (Hside : forall f w0,
             ToBoolean (Get parsed (key f)) = true
             \/ random E1 (drawn w0) = random E2 (drawn w0)).
  { intros f w0. destruct H as [H | H]; [left; apply H | right; apply H]. }
  step_ext E1 E2 ltac:(apply (Hside CurrentPrice)).
  step_ext E1 E2 ltac:(apply (Hside DayHigh)).
  step_ext E1 E2 ltac:(apply (Hside DayLow)).
  step_ext E1 E2 ltac:(apply (Hside PeRatio)).
  step_ext E1 E2 ltac:(apply (Hside Roe)).
  step_ext E1 E2 ltac:(apply (Hside DebtToEquity)).
  step_ext E1 E2 ltac:(apply (Hside ProfitMargins)).
  step_ext E1 E2 ltac:(apply (Hside RevenueGrowth)).
  reflexivity.
Qed.

(** A retrieval reads the environment through the reply to its prompt,
    the time the reply takes and the draws. *)
Lemma fetchStockMetrics_ext E1 E2 stockSymbol w :
  accepted (replyTo E1 stockSymbol w) = accepted (replyTo E2 stockSymbol w) ->
  elapsed E1 (length (sent w)) = elapsed E2 (length (sent w)) ->
  (forall parsed,
      accepted (replyTo E1 stockSymbol w) = Some parsed ->
      (forall f, ToBoolean (Get parsed (key f)) = true)
      \/ (forall k, random E1 k = random E2 k)) ->
  fetchStockMetrics E1 stockSymbol w = fetchStockMetrics E2 stockSymbol w.
Proof.
  intros Ha He Hr. rewrite !fetchStockMetrics_eq. cbv zeta.
  rewrite <- Ha. unfold called. rewrite <- He.
  destruct (accepted (replyTo E1 stockSymbol w)) as [parsed |]; [| reflexivity].
  rewrite (normalize_ext E1 E2) by (apply Hr; reflexivity). reflexivity.
Qed.

Lemma blank_false text c :
  c ∈ text -> isWhiteSpace c = false -> blank text = false.
Proof.
  intros Hin Hc. destruct (blank text) eqn:Hb; [| reflexivity].
  apply blank_iff in Hb. rewrite Forall_forall in Hb.
  rewrite (Hb c Hin) in Hc. discriminate Hc.
Qed.

(** X1.  A call of [getStockMetrics] that is served from the cache changes
    nothing.  Any other call sends exactly one prompt, the one for its
    symbol, and ends when the reply has arrived, whether it returns a
    record or throws: a failed attempt is not tried again. *)
Theorem one_prompt_per_retrieval E stockSymbol w r w' :
  getStockMetrics E stockSymbol w = (r, w') ->
  if fresh (stockCache w !! stockSymbol) (now w)
  then w' = w
  else sent w' = StockPrompt stockSymbol :: sent w
       /\ now w' = (now w + Z.of_N (elapsed E (length (sent w))))%Z.
Proof.
  intros H. destruct (fresh (stockCache w !! stockSymbol) (now w)) eqn:Hf.
  - destruct (fresh_true _ _ Hf) as (c & Hc & Ht).
    rewrite (getStockMetrics_hit _ _ _ _ Hc Ht) in H. injection H as _ <-.
    reflexivity.
  - rewrite (getStockMetrics_miss _ _ _ Hf) in H.
    exact (fetchStockMetrics_sent _ _ _ _ _ H).
Qed.

Lemma one_prompt_per_retrieval_witness :
  sent (snd (getStockMetrics unreachable (str "ACME") (started 0)))
  = [StockPrompt (str "ACME")]
  /\ now (snd (getStockMetrics unreachable (str "ACME") (started 0))) = 120%Z.
Proof.
  destruct (getStockMetrics unreachable (str "ACME") (started 0))
    as [r w'] eqn:H.
  exact (one_prompt_per_retrieval unreachable (str "ACME") (started 0) r w' H).
Defined.

(** X2.  When a reply is accepted and the retrieval returns a record, the
    call has drawn one result of [Math.random()] for each numeric field
    whose property in the reply is falsy, in the order of the fields in
    the object literal: the placeholder of such a field is made from the
    draw whose number is the number of draws before the call plus the
    number of falsy fields before it. *)
Theorem placeholders_drawn_in_order E stockSymbol w parsed d w' :
  fresh (stockCache w !! stockSymbol) (now w) = false ->
  accepted (replyTo E stockSymbol w) = Some parsed ->
  getStockMetrics E stockSymbol w = (Normal d, w') ->
  drawn w' = (drawn w + drawsOf parsed fieldOrder)%nat
  /\ forall f,
       ToBoolean (Get parsed (key f)) = false ->
       field f d
       = Num (random E (drawn w + drawsBefore parsed f fieldOrder)
              * scale f + offset f).
Proof.
  intros Hf Ha H. rewrite (getStockMetrics_miss _ _ _ Hf) in H.
  apply fetchStockMetrics_Normal in H as (parsed' & w2 & Ha' & Hn & ->).
  assert (parsed' = parsed) as -> by congruence.
  exact (normalize_draws _ _ _ _ _ _ Hn).
Qed.

Lemma placeholders_drawn_in_order_witness :
  drawn (snd (getStockMetrics (harmonic mixedReply) (str "ACME") (started 0)))
  = 6%nat
  /\ debtToEquity (data (default acmeEntry
       (stockCache (snd (getStockMetrics (harmonic mixedReply) (str "ACME")
                           (started 0))) !! str "ACME")))
     = Num ((1 # 5) * 1 + 0.2).
Proof.
  destruct (getStockMetrics (harmonic mixedReply) (str "ACME") (started 0))
    as [[d | e] w'] eqn:H; [| vm_compute in H; discriminate H].
  assert (Hd : data (default acmeEntry (stockCache w' !! str "ACME")) = d).
  { vm_compute in H. injection H as <- <-. vm_compute. reflexivity. }
  simpl snd. rewrite Hd.
  assert (Ha : accepted (replyTo (harmonic mixedReply) (str "ACME") (started 0))
               = Some (VObj [(str "currentPrice", VNum (Num (scientific 0 0)));
                              (str "dayHigh", VNull);
                              (str "dayLow", VStr []);
                              (str "peRatio", VStr (str "12.5"));
                              (str "roe", VStr (str "N/A"))]))
    by (vm_compute; reflexivity).
  destruct (placeholders_drawn_in_order (harmonic mixedReply) (str "ACME")
              (started 0) _ d w' eq_refl Ha H) as [Hn Hfield].
  split; [exact Hn | exact (Hfield DebtToEquity eq_refl)].
Defined.

(** X3.  When every numeric property of an accepted reply is truthy, the
    call draws nothing from [Math.random()]: its result and the world it
    leaves are the same in two environments that differ only in what
    [Math.random()] returns. *)
Theorem complete_reply_draws_nothing E1 E2 stockSymbol w parsed :
  sameModel E1 E2 ->
  accepted (replyTo E1 stockSymbol w) = Some parsed ->
  (forall f, ToBoolean (Get parsed (key f)) = true) ->
  getStockMetrics E1 stockSymbol w = getStockMetrics E2 stockSymbol w
  /\ forall d w', getStockMetrics E1 stockSymbol w = (Normal d, w') ->
                  drawn w' = drawn w.
Proof.
  intros [Hg He] Ha Ht.
  destruct (fresh (stockCache w !! stockSymbol) (now w)) eqn:Hf.
  - destruct (fresh_true _ _ Hf) as (c & Hc & Hlt).
    rewrite !(getStockMetrics_hit _ _ _ _ Hc Hlt).
    split; [reflexivity |]. intros d w' H. injection H as _ <-. reflexivity.
  - rewrite !(getStockMetrics_miss _ _ _ Hf). split.
    + apply fetchStockMetrics_ext.
      * unfold replyTo. rewrite Hg. reflexivity.
      * apply He.
      * intros parsed' Ha'. left. assert (parsed' = parsed) as -> by congruence.
        exact Ht.
    + intros d w' H.
      apply fetchStockMetrics_Normal in H as (parsed' & w2 & Ha' & Hn & ->).
      assert (parsed' = parsed) as -> by congruence.
      apply normalize_draws in Hn as [Hn _].
      unfold fieldOrder, drawsOf, draws in Hn.
      rewrite (Ht CurrentPrice), (Ht DayHigh), (Ht DayLow), (Ht PeRatio),
        (Ht Roe), (Ht DebtToEquity), (Ht ProfitMargins), (Ht RevenueGrowth)
        in Hn.
      simpl in *. lia.
Qed.

Lemma sameModel_answering_harmonic text :
  sameModel (answering text) (harmonic text).
Proof. split; intros; reflexivity. Defined.

Lemma complete_reply_draws_nothing_witness :
  getStockMetrics (answering completeReply) (str "ACME") (started 0)
  = getStockMetrics (harmonic completeReply) (str "ACME") (started 0).
Proof.
  destruct (accepted (replyTo (answering completeReply) (str "ACME") (started 0)))
    as [parsed |] eqn:Ha; [| vm_compute in Ha; discriminate Ha].
  apply (proj1 (complete_reply_draws_nothing (answering completeReply)
                  (harmonic completeReply) (str "ACME") (started 0) parsed
                  (sameModel_answering_harmonic completeReply) Ha
                  ltac:(intros f; vm_compute in Ha; injection Ha as <-;
                        destruct f; reflexivity))).
Defined.



(** X5.  The record is stored under the symbol that was asked for, while
    its [symbol] is the one of the reply when the reply has a truthy one,
    so the two may differ; its [stockName] is the [stockName] of the
    reply, else its [name], else the symbol asked for. *)
Theorem record_names_come_from_reply E stockSymbol w parsed d w' :
  fresh (stockCache w !! stockSymbol) (now w) = false ->
  accepted (replyTo E stockSymbol w) = Some parsed ->
  getStockMetrics E stockSymbol w = (Normal d, w') ->
  stockCache w' !! stockSymbol = Some {| data := d; timestamp := now w' |}
  /\ symbol d
     = (if ToBoolean (Get parsed (str "symbol")) then Get parsed (str "symbol")
        else VStr stockSymbol)
  /\ stockName d
     = (if ToBoolean (Get parsed (str "stockName"))
        then Get parsed (str "stockName")
        else if ToBoolean (Get parsed (str "name")) then Get parsed (str "name")
             else VStr stockSymbol).
Proof.
  intros Hf Ha H. rewrite (getStockMetrics_miss _ _ _ Hf) in H.
  apply fetchStockMetrics_Normal in H as (parsed' & w2 & Ha' & Hn & ->).
  assert (parsed' = parsed) as -> by congruence.
  apply normalize_Normal in Hn as (_ & Hname & Hsym & _).
  split; [apply lookup_insert_eq |]. split; [exact Hsym | exact Hname].
Qed.

Lemma record_names_come_from_reply_witness :
  exists d w',
    getStockMetrics (answering (js "{'symbol':'MSFT','name':'Microsoft'}"))
                    (str "AAPL") (started 0) = (Normal d, w')
    /\ stockCache w' !! str "AAPL" = Some {| data := d; timestamp := now w' |}
    /\ symbol d = VStr (str "MSFT")
    /\ stockName d = VStr (str "Microsoft").
Proof.
  destruct (getStockMetrics (answering (js "{'symbol':'MSFT','name':'Microsoft'}"))
              (str "AAPL") (started 0)) as [[d | e] w'] eqn:H;
    [| vm_compute in H; discriminate H].
  exists d, w'. split; [reflexivity |].
  exact (record_names_come_from_reply
           (answering (js "{'symbol':'MSFT','name':'Microsoft'}")) (str "AAPL")
           (started 0)
           (VObj [(str "symbol", VStr (str "MSFT"));
                  (str "name", VStr (str "Microsoft"))])
           d w' eq_refl eq_refl H).
Defined.

(** X6.  What the model writes before the first opening brace and after
    the last closing brace does not count: a call whose reply is a text in
    braces with such a text around it gives the result, and leaves the
    world, that it gives when the reply is the text in braces alone. *)
Theorem prose_around_braces_ignored E stockSymbol w before body after :
  ch "{" ∉ before ->
  ch "}" ∉ after ->
  getStockMetrics
    (replying (before ++ ch "{" :: body ++ ch "}" :: after) E) stockSymbol w
  = getStockMetrics (replying (ch "{" :: body ++ [ch "}"]) E) stockSymbol w.
Proof.
  intros Hb Ha.
  destruct (fresh (stockCache w !! stockSymbol) (now w)) eqn:Hf.
  - destruct (fresh_true _ _ Hf) as (c & Hc & Hlt).
    rewrite !(getStockMetrics_hit _ _ _ _ Hc Hlt). reflexivity.
  - rewrite !(getStockMetrics_miss _ _ _ Hf).
    apply fetchStockMetrics_ext; [| reflexivity | intros; right; reflexivity].
    change (accepted (Resolves (Some (before ++ ch "{" :: body ++ ch "}" :: after)))
            = accepted (Resolves (Some (ch "{" :: body ++ [ch "}"])))).
    unfold accepted. cbv beta iota zeta delta [from_option id].
    rewrite (blank_false (before ++ ch "{" :: body ++ ch "}" :: after) (ch "{"))
      by (try reflexivity; apply elem_of_app; right; left).
    rewrite (blank_false (ch "{" :: body ++ [ch "}"]) (ch "{"))
      by (try reflexivity; left).
    unfold candidate.
    rewrite (match_braces_app _ _ _ Hb Ha).
    pose proof (match_braces_app [] body [] (not_elem_of_nil _)
                  (not_elem_of_nil _)) as Hm.
    rewrite app_nil_l in Hm. rewrite Hm. reflexivity.
Qed.

Lemma prose_around_braces_ignored_witness :
  getStockMetrics (replying acmeReply unreachable) (str "ACME") (started 0)
  = getStockMetrics
      (replying (js "{'stockName':'Acme','symbol':'ACME','currentPrice':42}")
                unreachable) (str "ACME") (started 0).
Proof.
  apply (prose_around_braces_ignored unreachable (str "ACME") (started 0)
           (str "Sure! ")
           (js "'stockName':'Acme','symbol':'ACME','currentPrice':42") []).
  - vm_compute. intros H. repeat (apply elem_of_cons in H as [H | H];
      [discriminate H |]). inversion H.
  - apply not_elem_of_nil.
Defined.

(** ** More on the routes *)

Lemma getStockMetrics_Throw E stockSymbol w e w' :
  getStockMetrics E stockSymbol w = (Throw e, w') ->
  e = Error (failureMessage stockSymbol) /\ stockCache w' = stockCache w.
Proof.
  intros H. destruct (fresh (stockCache w !! stockSymbol) (now w)) eqn:Hf.
  - destruct (fresh_true _ _ Hf) as (c & Hc & Ht).
    rewrite (getStockMetrics_hit _ _ _ _ Hc Ht) in H. discriminate H.
  - rewrite (getStockMetrics_miss _ _ _ Hf) in H.
    apply fetchStockMetrics_Throw in H as (He & Hc & _). auto.
Qed.

Lemma analyzeRoute_eq E param w d w1 :
  getStockMetrics E (toUpperCase param) w = (Normal d, w1) ->
  analyzeRoute E param w
  = if toStringThrows (stockName d)
    then ({| status := 500; body := AnalysisError TypeError |}, w1)
    else
      (match generateContent E (length (sent w1))
               (AnalysisPrompt d (toUpperCase param)) with
       | Resolves (Some text) => {| status := 200; body := GeminiResponse text |}
       | Resolves None => {| status := 500; body := AnalysisError TypeError |}
       | Rejects => {| status := 500; body := AnalysisError Rejected |}
       end,
       called E (AnalysisPrompt d (toUpperCase param)) w1).
Proof.
  intros H. unfold analyzeRoute, bind. rewrite H.
  destruct (toStringThrows (stockName d)); [reflexivity |].
  unfold ret, model_generateContent, called.
  destruct (generateContent E _ _) as [| [text |]]; reflexivity.
Qed.



(** X8.  [GET /analyze/:symbol] does not send the analysis prompt when the
    retrieval throws or when the [stockName] of the record does not convert
    to a string: it answers 500 in the world the retrieval left.  In the
    second case the record has been returned, and stored if it was
    fetched, all the same. *)
Theorem analysis_not_asked_on_failure E param w r w1 :
  getStockMetrics E (toUpperCase param) w = (r, w1) ->
  match r with
  | Throw e =>
      analyzeRoute E param w
      = ({| status := 500;
            body := AnalysisError (Error (failureMessage (toUpperCase param))) |},
         w1)
      /\ stockCache w1 = stockCache w
  | Normal d =>
      toStringThrows (stockName d) = true ->
      analyzeRoute E param w
      = ({| status := 500; body := AnalysisError TypeError |}, w1)
  end.
Proof.
  intros H. destruct r as [d | e].
  - intros Hs. rewrite (analyzeRoute_eq _ _ _ _ _ H), Hs. reflexivity.
  - destruct (getStockMetrics_Throw _ _ _ _ _ H) as [-> Hc].
    split; [| exact Hc]. unfold analyzeRoute, bind. rewrite H. reflexivity.
Qed.

Lemma analysis_not_asked_on_failure_witness :
  analyzeRoute (answering (js "{'stockName':{'toString':1}}")) (str "acme")
               (started 0)
  = ({| status := 500; body := AnalysisError TypeError |},
     snd (getStockMetrics (answering (js "{'stockName':{'toString':1}}"))
                          (str "ACME") (started 0)))
  /\ sent (snd (getStockMetrics (answering (js "{'stockName':{'toString':1}}"))
                                (str "ACME") (started 0)))
     = [StockPrompt (str "ACME")].
Proof.
  split; [| vm_compute; reflexivity].
  destruct (getStockMetrics (answering (js "{'stockName':{'toString':1}}"))
              (str "ACME") (started 0)) as [[d | e] w1] eqn:H;
    [| vm_compute in H; discriminate H].
  apply (analysis_not_asked_on_failure _ (str "acme") _ _ _ H).
  vm_compute in H. injection H as <- _. reflexivity.
Defined.

(** X9.  [GET /stock/:symbol] answers 200 with the record that is then in
    the cache under the upper-cased symbol, or 500 with the error whose
    message names the upper-cased symbol, and in that case it leaves the
    cache as it found it. *)
Theorem stock_route_answers E param w r w' :
  stockRoute E param w = (r, w') ->
  (status r = 200%nat
   /\ exists d e, body r = StockData d
                  /\ stockCache w' !! toUpperCase param = Some e /\ data e = d)
  \/ (status r = 500%nat
      /\ body r = StockError (Error (failureMessage (toUpperCase param)))
      /\ occursIn (toUpperCase param) (failureMessage (toUpperCase param))
      /\ stockCache w' = stockCache w).
Proof.
  unfold stockRoute.
  destruct (getStockMetrics E (toUpperCase param) w) as [[d | e] w1] eqn:H;
    intros Hr; injection Hr as <- <-.
  - left. split; [reflexivity |].
    destruct (getStockMetrics_stored _ _ _ _ _ H) as (e & He & Hd).
    exists d, e. auto.
  - right. destruct (getStockMetrics_Throw _ _ _ _ _ H) as [-> Hc].
    split; [reflexivity |]. split; [reflexivity |]. split; [| exact Hc].
    exists (str "Failed to retrieve real-time data for "),
      (str ". Please ensure the symbol is valid and try again.").
    reflexivity.
Qed.

Lemma stock_route_answers_witness :
  body (fst (stockRoute unreachable (str "tcs") (started 0)))
  = StockError (Error (failureMessage (str "TCS"))).
Proof.
  destruct (stockRoute unreachable (str "tcs") (started 0)) as [r w'] eqn:H.
  destruct (stock_route_answers _ _ _ _ _ H) as [[Hs _] | (_ & Hb & _)].
  - vm_compute in H. injection H as <- _. discriminate Hs.
  - exact Hb.
Defined.

(** ** The middleware *)

Lemma split_nonempty sep s : split sep s <> [].
Proof.
  destruct s as [| c r]; simpl; [discriminate |].
  destruct (c =? sep); [discriminate |].
  destruct (split sep r); discriminate.
Qed.

Lemma split_notin sep s : sep ∉ s -> split sep s = [s].
Proof.
  induction s as [| c r IH]; simpl; intros Hn; [reflexivity |].
  destruct (N.eqb_spec c sep) as [-> | _]; [exfalso; apply Hn; left |].
  rewrite IH by (intros Hin; apply Hn; right; exact Hin). reflexivity.
Qed.

Lemma split_app sep a r :
  sep ∉ a -> split sep (a ++ sep :: r) = a :: split sep r.
Proof.
  induction a as [| c a IH]; simpl; intros Hn.
  - rewrite N.eqb_refl. reflexivity.
  - destruct (N.eqb_spec c sep) as [-> | _]; [exfalso; apply Hn; left |].
    rewrite IH by (intros Hin; apply Hn; right; exact Hin). reflexivity.
Qed.

Lemma headerToken_second scheme token rest :
  32 ∉ scheme -> 32 ∉ token -> rest = [] \/ (exists r, rest = 32 :: r) ->
  headerToken (Some (scheme ++ 32 :: token ++ rest)) = VStr token.
Proof.
  intros Hs Ht Hr. unfold headerToken.
  replace (ToBoolean (VStr (scheme ++ 32 :: token ++ rest))) with true
    by (destruct scheme; reflexivity).
  rewrite (split_app _ _ _ Hs). simpl nth_error.
  destruct Hr as [-> | [r ->]].
  - rewrite app_nil_r, (split_notin _ _ Ht). reflexivity.
  - rewrite (split_app _ _ _ Ht). reflexivity.
Qed.

Lemma headerToken_undefined authHeader :
  headerToken authHeader = VUndefined <->
  authHeader = None \/ exists h, authHeader = Some h /\ h <> [] /\ 32 ∉ h.
Proof.
  unfold headerToken. destruct authHeader as [h |]; [| split; auto].
  destruct h as [| c h]; simpl ToBoolean.
  - split; [discriminate |]. intros [H | (h & H & Hne & _)]; [discriminate H |].
    injection H as <-. congruence.
  - split.
    + intros H. right. exists (c :: h). split; [reflexivity |].
      split; [discriminate |]. intros Hin.
      apply list_elem_of_split_l in Hin as (a & r & Heq & Hn).
      rewrite Heq, (split_app _ _ _ Hn) in H. simpl in H.
      pose proof (split_nonempty 32 r) as Hne.
      destruct (split 32 r); [congruence | discriminate H].
    + intros [H | (h' & H & _ & Hn)]; [discriminate H |].
      injection H as <-. rewrite (split_notin _ _ Hn). reflexivity.
Qed.

Lemma headerToken_shape authHeader :
  headerToken authHeader = VUndefined
  \/ exists token, headerToken authHeader = VStr token.
Proof.
  unfold headerToken. repeat break_match; eauto.
Qed.

(** X10.  [authenticateToken] answers 401 exactly when the request has no
    [Authorization] header or has one that is not empty and contains no
    space; an empty header goes to [jwt.verify] as the empty token. *)
Theorem no_token_iff {Db} (svc : Services Db) JWT_SECRET authHeader t :
  (authenticateToken svc JWT_SECRET authHeader t = noTokenProvided <->
   authHeader = None \/ exists h, authHeader = Some h /\ h <> [] /\ 32 ∉ h)
  /\ authenticateToken svc JWT_SECRET (Some []) t
     = match jwt_verify svc [] (secretKey JWT_SECRET) t with
       | Some user => Next user
       | None => invalidToken
       end.
Proof.
  split; [| reflexivity].
  rewrite <- headerToken_undefined. unfold authenticateToken.
  destruct (headerToken_shape authHeader) as [-> | [token ->]].
  - split; reflexivity.
  - split; [| discriminate].
    destruct (jwt_verify svc token (secretKey JWT_SECRET) t); discriminate.
Qed.

Lemma no_token_iff_witness :
  authenticateToken sampleServices None (Some (str "Bearer")) 0 = noTokenProvided.
Proof.
  apply (proj1 (no_token_iff sampleServices None (Some (str "Bearer")) 0)).
  right. exists (str "Bearer"). split; [reflexivity |]. split; [discriminate |].
  vm_compute. intros H. repeat (apply elem_of_cons in H as [H | H];
    [discriminate H |]). inversion H.
Defined.

Lemma authenticateToken_segment {Db} (svc : Services Db) JWT_SECRET
  scheme token rest t :
  32 ∉ scheme -> 32 ∉ token -> rest = [] \/ (exists r, rest = 32 :: r) ->
  authenticateToken svc JWT_SECRET (Some (scheme ++ 32 :: token ++ rest)) t
  = match jwt_verify svc token (secretKey JWT_SECRET) t with
    | Some user => Next user
    | None => invalidToken
    end.
Proof.
  intros Hs Ht Hr. unfold authenticateToken.
  rewrite (headerToken_second _ _ _ Hs Ht Hr). reflexivity.
Qed.

(** X11.  The token that [authenticateToken] verifies is what stands
    between the first space of the header and the next one, or the end.
    Neither the word before the first space nor anything after the second
    is looked at: the outcome is that of [jwt.verify] on that token, so
    that two headers with the same token have the same outcome. *)
Theorem second_segment_is_verified {Db} (svc : Services Db) JWT_SECRET
  scheme token rest t :
  32 ∉ scheme -> 32 ∉ token -> rest = [] \/ (exists r, rest = 32 :: r) ->
  authenticateToken svc JWT_SECRET (Some (scheme ++ 32 :: token ++ rest)) t
  = match jwt_verify svc token (secretKey JWT_SECRET) t with
    | Some user => Next user
    | None => invalidToken
    end
  /\ authenticateToken svc JWT_SECRET (Some (scheme ++ 32 :: token ++ rest)) t
     = authenticateToken svc JWT_SECRET (Some (str "Bearer " ++ token)) t.
Proof.
  intros Hs Ht Hr. rewrite (authenticateToken_segment _ _ _ _ _ _ Hs Ht Hr).
  split; [reflexivity |].
  pose proof (authenticateToken_segment svc JWT_SECRET (str "Bearer") token [] t)
    as Hb.
  rewrite app_nil_r in Hb.
  change (str "Bearer " ++ token) with (str "Bearer" ++ 32 :: token).
  rewrite Hb; [reflexivity | | exact Ht | left; reflexivity].
  vm_compute. intros Hin. repeat (apply elem_of_cons in Hin as [Hin | Hin];
    [discriminate Hin |]). inversion Hin.
Qed.

Lemma second_segment_is_verified_witness :
  authenticateToken sampleServices None (Some (str "Basic 7a@b.c trailing words")) 0
  = Next (tokenPayload 55 (str "a@b.c")).
Proof.
  apply (proj1 (second_segment_is_verified sampleServices None (str "Basic")
                  (str "7a@b.c") (str " trailing words") 0
                  ltac:(vm_compute; intros H;
                        repeat (apply elem_of_cons in H as [H | H];
                                [discriminate H |]); inversion H)
                  ltac:(vm_compute; intros H;
                        repeat (apply elem_of_cons in H as [H | H];
                                [discriminate H |]); inversion H)
                  ltac:(right; eexists; reflexivity))).
Defined.


(** X12.  A request that the middleware turns away leaves the process as
    it was: no prompt is sent and the cache is not touched.  A request
    that is answered by the handler of [GET /stock/:symbol] or of [GET
    /analyze/:symbol] carried a token that [jwt.verify] accepted with the
    secret key at the time of the request. *)
Theorem protected_routes_guarded {Db} (svc : Services Db) JWT_SECRET E
  authHeader param w :
  (forall a w',
      getStock svc JWT_SECRET E authHeader param w = (a, w') ->
      match a with
      | Refused st _ => w' = w /\ (st = 401 \/ st = 403)%nat
      | Answered r =>
          stockRoute E param w = (r, w')
          /\ exists token user,
               headerToken authHeader = VStr token
               /\ jwt_verify svc token (secretKey JWT_SECRET) (now w) = Some user
      end)
  /\ (forall a w',
        getAnalyze svc JWT_SECRET E authHeader param w = (a, w') ->
        match a with
        | Refused st _ => w' = w /\ (st = 401 \/ st = 403)%nat
        | Answered r =>
            analyzeRoute E param w = (r, w')
            /\ exists token user,
                 headerToken authHeader = VStr token
                 /\ jwt_verify svc token (secretKey JWT_SECRET) (now w) = Some user
        end).
Proof.
  assert (Hgate : forall user,
             authenticateToken svc JWT_SECRET authHeader (now w) = Next user ->
             exists token,
               headerToken authHeader = VStr token
               /\ jwt_verify svc token (secretKey JWT_SECRET) (now w) = Some user).
  { intros user. unfold authenticateToken.
    destruct (headerToken authHeader) as [| | b | n | token | elems | props];
      try discriminate.
    destruct (jwt_verify svc token (secretKey JWT_SECRET) (now w)) as [u |] eqn:Hv;
      [| discriminate].
    intros H. injection H as <-. eauto. }
  assert (Hdeny : forall st err,
             authenticateToken svc JWT_SECRET authHeader (now w) = Denied st err ->
             (st = 401 \/ st = 403)%nat).
  { intros st err. unfold authenticateToken, noTokenProvided, invalidToken.
    repeat break_match; intros H; try discriminate H; injection H as <- _; auto. }
  split; intros a w'; unfold getStock, getAnalyze, protected;
    destruct (authenticateToken svc JWT_SECRET authHeader (now w))
      as [st err | user] eqn:Hg.
  - intros H. injection H as <- <-. split; [reflexivity | eauto].
  - destruct (stockRoute E param w) as [r w1]. intros H. injection H as <- <-.
    split; [reflexivity |]. destruct (Hgate user eq_refl) as (token & ? & ?).
    eauto.
  - intros H. injection H as <- <-. split; [reflexivity | eauto].
  - destruct (analyzeRoute E param w) as [r w1]. intros H. injection H as <- <-.
    split; [reflexivity |]. destruct (Hgate user eq_refl) as (token & ? & ?).
    eauto.
Qed.

Lemma protected_routes_guarded_witness :
  snd (getStock sampleServices None (answering acmeReply) (Some (str "Bearer "))
                (str "acme") (started 0))
  = started 0.
Proof.
  destruct (getStock sampleServices None (answering acmeReply)
              (Some (str "Bearer ")) (str "acme") (started 0)) as [a w'] eqn:H.
  pose proof (proj1 (protected_routes_guarded sampleServices None
                       (answering acmeReply) (Some (str "Bearer ")) (str "acme")
                       (started 0)) a w' H) as Hg.
  destruct a as [st err | r]; [exact (proj1 Hg) |].
  vm_compute in H. discriminate H.
Defined.

(** ** The accounts *)

Lemma ltb_six n :
  number_ltb (Num (inject_Z (Z.of_nat n))) (Num 6) = (n <? 6)%nat.
Proof.
  unfold number_ltb. destruct (Nat.ltb_spec n 6) as [H | H].
  - apply negb_true_iff. destruct (Qle_bool 6 (inject_Z (Z.of_nat n))) eqn:Hq;
      [| reflexivity].
    apply Qle_bool_iff in Hq. unfold Qle in Hq. simpl in Hq. lia.
  - apply negb_false_iff. apply Qle_bool_iff. unfold Qle. simpl. lia.
Qed.

Lemma shorterThanSix_string p :
  shorterThanSix (VStr p) = Normal (length p <? 6)%nat.
Proof.
  unfold shorterThanSix, lengthOf, lessThan, Number. rewrite ltb_six.
  reflexivity.
Qed.

Lemma shorterThanSix_array elems :
  shorterThanSix (VArr elems) = Normal (length elems <? 6)%nat.
Proof.
  unfold shorterThanSix, lengthOf, lessThan, Number. rewrite ltb_six.
  reflexivity.
Qed.

Lemma property_Normal body k :
  body <> VUndefined -> body <> VNull -> property body k = Normal (Get body k).
Proof. destruct body; intros H1 H2; try reflexivity; congruence. Qed.

Lemma signup_tooShort_iff {Db} (svc : Services Db) body a :
  body <> VUndefined -> body <> VNull ->
  ToBoolean (Get body (str "email")) = true ->
  ToBoolean (Get body (str "password")) = true ->
  (fst (signup svc body a) = passwordTooShort
   <-> shorterThanSix (Get body (str "password")) = Normal true)
  /\ (shorterThanSix (Get body (str "password")) = Normal true ->
      snd (signup svc body a) = a).
Proof.
  intros H1 H2 He Hp. unfold signup.
  rewrite !(property_Normal _ _ H1 H2), He, Hp. simpl negb. simpl orb. cbv iota.
  destruct (shorterThanSix (Get body (str "password"))) as [[|] | e].
  - split; [split; reflexivity | reflexivity].
  - split; [| discriminate].
    split; [| discriminate]. repeat break_match; discriminate.
  - split; [| discriminate]. split; discriminate.
Qed.

(** X13.  [POST /auth/signup] answers 500 to a request without a body.
    With a body, it answers that email and password are required, and
    does nothing else, when one of the two is missing or falsy.  With a
    truthy email, a password that is a string is refused as too short
    exactly when it has fewer than six code units, and one that is an
    array exactly when it has fewer than six elements; a password that is
    a number or a boolean has no length and is never refused as too
    short. *)
Theorem signup_validation {Db} (svc : Services Db) body a :
  (body = VUndefined \/ body = VNull -> signup svc body a = (signupError, a))
  /\ (body <> VUndefined -> body <> VNull ->
      let email := Get body (str "email") in
      let password := Get body (str "password") in
      (ToBoolean email = false \/ ToBoolean password = false ->
       signup svc body a = (emailAndPasswordRequired, a))
      /\ (ToBoolean email = true ->
          (forall p, password = VStr p -> p <> [] ->
                     (fst (signup svc body a) = passwordTooShort
                      <-> (length p < 6)%nat)
                     /\ ((length p < 6)%nat -> snd (signup svc body a) = a))
          /\ (forall elems, password = VArr elems ->
                            (fst (signup svc body a) = passwordTooShort
                             <-> (length elems < 6)%nat))
          /\ (forall n, password = VNum n ->
                        fst (signup svc body a) <> passwordTooShort)
          /\ (forall b, password = VBool b ->
                        fst (signup svc body a) <> passwordTooShort))).
Proof.
  split.
  - intros [-> | ->]; reflexivity.
  - intros H1 H2 email password. split.
    + intros Hfalsy. unfold signup. rewrite !(property_Normal _ _ H1 H2).
      fold email. fold password.
      destruct Hfalsy as [-> | ->]; [reflexivity |].
      rewrite orb_true_r. reflexivity.
    + intros He.
      assert (Hiff : ToBoolean password = true ->
                (fst (signup svc body a) = passwordTooShort
                 <-> shorterThanSix password = Normal true)
                /\ (shorterThanSix password = Normal true ->
                    snd (signup svc body a) = a))
        by (intros Hp; exact (signup_tooShort_iff svc body a H1 H2 He Hp)).
      assert (Hfalsy : ToBoolean password = false ->
                fst (signup svc body a) <> passwordTooShort).
      { intros Hp. unfold signup. rewrite !(property_Normal _ _ H1 H2).
        fold password. rewrite Hp, orb_true_r. discriminate. }
      split; [| split; [| split]].
      * intros p Hpw Hne.
        destruct Hiff as [Hiff Hsnd];
          [rewrite Hpw; destruct p; [congruence | reflexivity] |].
        rewrite Hpw, shorterThanSix_string in Hiff, Hsnd.
        split.
        -- rewrite Hiff, <- Nat.ltb_lt. split; [intros Hx; injection Hx; auto |].
           intros ->. reflexivity.
        -- intros Hlt. apply Hsnd. apply Nat.ltb_lt in Hlt. rewrite Hlt.
           reflexivity.
      * intros elems Hpw.
        destruct Hiff as [Hiff _]; [rewrite Hpw; reflexivity |].
        rewrite Hpw, shorterThanSix_array in Hiff.
        rewrite Hiff, <- Nat.ltb_lt. split; [intros Hx; injection Hx; auto |].
        intros ->. reflexivity.
      * intros n Hpw. destruct (ToBoolean password) eqn:Hp; [| auto].
        destruct Hiff as [Hiff _]; [reflexivity |].
        rewrite Hiff, Hpw. discriminate.
      * intros b Hpw. destruct (ToBoolean password) eqn:Hp; [| auto].
        destruct Hiff as [Hiff _]; [reflexivity |].
        rewrite Hiff, Hpw. discriminate.
Qed.

Lemma signup_validation_witness :
  fst (signup sampleServices (credentials (str "a@b.c") (str "12345")) noAccounts)
  = passwordTooShort
  /\ fst (signup sampleServices
            (VObj [(str "email", VStr (str "a@b.c"));
                   (str "password", VNum (Num 12345))]) noAccounts)
     <> passwordTooShort.
Proof.
  destruct (proj2 (signup_validation sampleServices
                     (credentials (str "a@b.c") (str "12345")) noAccounts))
    as [_ Hs]; [discriminate | discriminate |].
  destruct (Hs eq_refl) as (Hstr & _).
  destruct (Hstr (str "12345") eq_refl) as [Hiff _]; [discriminate |].
  split; [apply Hiff; vm_compute; lia |].
  destruct (proj2 (signup_validation sampleServices
                     (VObj [(str "email", VStr (str "a@b.c"));
                            (str "password", VNum (Num 12345))]) noAccounts))
    as [_ Hn]; [discriminate | discriminate |].
  destruct (Hn eq_refl) as (_ & _ & Hnum & _).
  exact (Hnum (Num 12345) eq_refl).
Defined.

Lemma signup_created_inv {Db} (svc : Services Db) body a a' :
  signup svc body a = (userCreated, a') ->
  exists email password salt hash,
    property body (str "email") = Normal email
    /\ property body (str "password") = Normal password
    /\ ToBoolean email = true /\ ToBoolean password = true
    /\ shorterThanSix password = Normal false
    /\ User_findOne svc email (users a) = Normal None
    /\ bcrypt_genSalt svc 10 (salts a) = Normal salt
    /\ bcrypt_hash svc password salt = Normal hash
    /\ User_save svc email hash (users a) = (Normal tt, users a')
    /\ salts a' = S (salts a).
Proof.
  unfold signup.
  destruct (property body (str "email")) as [email |]; [| discriminate].
  destruct (property body (str "password")) as [password |]; [| discriminate].
  destruct (ToBoolean email) eqn:Hte; [| discriminate].
  destruct (ToBoolean password) eqn:Htp; [| discriminate].
  simpl negb. simpl orb. cbv iota.
  destruct (shorterThanSix password) as [[|] |] eqn:Hshort; try discriminate.
  destruct (User_findOne svc email (users a)) as [[u |] |] eqn:Hfind;
    try discriminate.
  destruct (bcrypt_genSalt svc 10 (salts a)) as [salt |] eqn:Hsalt;
    [| discriminate].
  destruct (bcrypt_hash svc password salt) as [hash |] eqn:Hhash;
    [| discriminate].
  destruct (User_save svc email hash (users a)) as [[[] | e] db] eqn:Hsave;
    [| discriminate].
  intros H. injection H as <-. exists email, password, salt, hash.
  simpl. repeat split; assumption || reflexivity.
Qed.



Lemma login_ok_inv {Db} (svc : Services Db) JWT_SECRET body t db r :
  login svc JWT_SECRET body t db = r -> authStatus r = 200%nat ->
  exists email password user token,
    property body (str "email") = Normal email
    /\ property body (str "password") = Normal password
    /\ User_findOne svc email db = Normal (Some user)
    /\ bcrypt_compare svc password (User.passwordHash user) = Normal true
    /\ jwt_sign svc (tokenPayload (User._id user) (User.email user))
                (secretKey JWT_SECRET) t = Normal token
    /\ r = {| authStatus := 200;
              authBody := LoginOk (str "Login successful.") token
                                  (User.email user) |}.
Proof.
  unfold login. intros <-.
  destruct (property body (str "email")) as [email |]; [| discriminate].
  destruct (property body (str "password")) as [password |]; [| discriminate].
  destruct (User_findOne svc email db) as [[user |] |] eqn:Hfind;
    try discriminate.
  destruct (bcrypt_compare svc password (User.passwordHash user)) as [[|] |]
    eqn:Hcmp; try discriminate.
  destruct (jwt_sign svc (tokenPayload (User._id user) (User.email user))
              (secretKey JWT_SECRET) t) as [token |] eqn:Hsign; [| discriminate].
  intros _. exists email, password, user, token.
  repeat split; assumption || reflexivity.
Qed.

(** X15.  [POST /auth/login] answers 200 exactly when a user is found for
    the email, [bcrypt.compare] accepts the password against the hash of
    that user and [jwt.sign] returns a token; the answer then carries that
    token, signed over the number and the email of the user with the
    secret key.  It gives one and the same 401 answer when no user is
    found and when the password does not match. *)
Theorem login_outcomes {Db} (svc : Services Db) JWT_SECRET body t db :
  let r := login svc JWT_SECRET body t db in
  (authStatus r = 200%nat <->
   exists email password user token,
     property body (str "email") = Normal email
     /\ property body (str "password") = Normal password
     /\ User_findOne svc email db = Normal (Some user)
     /\ bcrypt_compare svc password (User.passwordHash user) = Normal true
     /\ jwt_sign svc (tokenPayload (User._id user) (User.email user))
                 (secretKey JWT_SECRET) t = Normal token
     /\ r = {| authStatus := 200;
               authBody := LoginOk (str "Login successful.") token
                                   (User.email user) |})
  /\ (r = invalidCredentials <->
      exists email password,
        property body (str "email") = Normal email
        /\ property body (str "password") = Normal password
        /\ (User_findOne svc email db = Normal None
            \/ exists user,
                 User_findOne svc email db = Normal (Some user)
                 /\ bcrypt_compare svc password (User.passwordHash user)
                    = Normal false)).
Proof.
  intros r. split.
  - split; [apply login_ok_inv; reflexivity |].
    intros (email & password & user & token & _ & _ & _ & _ & _ & ->).
    reflexivity.
  - subst r. unfold login.
    destruct (property body (str "email")) as [email |];
      [| split; [discriminate | intros (? & ? & H & _); discriminate H]].
    destruct (property body (str "password")) as [password |];
      [| split; [discriminate | intros (? & ? & _ & H & _); discriminate H]].
    destruct (User_findOne svc email db) as [[user |] |] eqn:Hfind.
    + destruct (bcrypt_compare svc password (User.passwordHash user))
        as [[|] |] eqn:Hcmp.
      * split.
        -- destruct (jwt_sign svc _ _ t); discriminate.
        -- intros (e' & p' & He & Hp & [Hn | (u & Hu & Hc)]);
             injection He as <-; injection Hp as <-; congruence.
      * split; [| reflexivity]. intros _. exists email, password.
        split; [reflexivity |]. split; [reflexivity |]. right. eauto.
      * split; [discriminate |].
        intros (e' & p' & He & Hp & [Hn | (u & Hu & Hc)]);
          injection He as <-; injection Hp as <-; congruence.
    + split; [| reflexivity]. intros _. exists email, password. auto.
    + split; [discriminate |].
      intros (e' & p' & He & Hp & [Hn | (u & Hu & Hc)]);
        injection He as <-; injection Hp as <-; congruence.
Qed.

Lemma login_outcomes_witness :
  login sampleServices None (credentials (str "nobody@b.c") (str "secret1")) 0 ∅
  = login sampleServices None (credentials (str "a@b.c") (str "wrong-password")) 0
      (users (snd (signup sampleServices
                     (credentials (str "a@b.c") (str "secret1")) noAccounts))).
Proof.
  transitivity invalidCredentials; [| symmetry].
  - apply (proj2 (login_outcomes sampleServices None
                    (credentials (str "nobody@b.c") (str "secret1")) 0 ∅)).
    exists (VStr (str "nobody@b.c")), (VStr (str "secret1")).
    split; [reflexivity |]. split; [reflexivity |]. left. reflexivity.
  - apply (proj2 (login_outcomes sampleServices None
                    (credentials (str "a@b.c") (str "wrong-password")) 0 _)).
    exists (VStr (str "a@b.c")), (VStr (str "wrong-password")).
    split; [reflexivity |]. split; [reflexivity |]. right.
    exists {| User._id := 0; User.email := str "a@b.c";
              User.passwordHash := str "$2a$10$saltsecret1" |}.
    split; vm_compute; reflexivity.
Defined.

(** X16.  When the collection returns what was saved, [bcrypt.compare]
    accepts a password against its own hash and [jwt.sign] returns a token,
    a signup that was answered 201 is followed by a successful login with
    the same body. *)
Theorem signup_then_login {Db} (svc : Services Db) JWT_SECRET body a a' t :
  (forall email hash db db',
      User_save svc email hash db = (Normal tt, db') ->
      exists user, User_findOne svc email db' = Normal (Some user)
                   /\ User.passwordHash user = hash) ->
  (forall password salt hash,
      bcrypt_hash svc password salt = Normal hash ->
      bcrypt_compare svc password hash = Normal true) ->
  (forall payload key, exists token, jwt_sign svc payload key t = Normal token) ->
  signup svc body a = (userCreated, a') ->
  authStatus (login svc JWT_SECRET body t (users a')) = 200%nat.
Proof.
  intros Hdb Hbc Hjwt H.
  apply signup_created_inv in H
    as (email & password & salt & hash & He & Hp & _ & _ & _ & _ & _ & Hh & Hs & _).
  destruct (Hdb _ _ _ _ Hs) as (user & Hfind & Hhash).
  unfold login. rewrite He, Hp, Hfind, Hhash, (Hbc _ _ _ Hh).
  destruct (Hjwt (tokenPayload (User._id user) (User.email user))
              (secretKey JWT_SECRET)) as [token ->].
  reflexivity.
Qed.

Lemma sample_save_find (email : value) (hash : jsstring)
  (db db' : gmap jsstring UserDoc) :
  User_save sampleServices email hash db = (Normal tt, db') ->
  exists user, User_findOne sampleServices email db' = Normal (Some user)
               /\ User.passwordHash user = hash.
Proof.
  simpl. destruct email; try discriminate. intros H. injection H as <-.
  eexists. rewrite lookup_insert_eq. split; reflexivity.
Defined.

Lemma sample_hash_compare (password : value) (salt hash : jsstring) :
  bcrypt_hash sampleServices password salt = Normal hash ->
  bcrypt_compare sampleServices password hash = Normal true.
Proof.
  simpl. destruct password; try discriminate. intros H. injection H as <-.
  f_equal. apply bool_decide_eq_true. apply suffix_app_r. reflexivity.
Defined.

Lemma signup_then_login_witness :
  authStatus
    (login sampleServices None (credentials (str "a@b.c") (str "secret1")) 0
       (users (snd (signup sampleServices
                      (credentials (str "a@b.c") (str "secret1")) noAccounts))))
  = 200%nat.
Proof.
  destruct (signup sampleServices (credentials (str "a@b.c") (str "secret1"))
              noAccounts) as [r a'] eqn:H.
  assert (r = userCreated) as -> by (vm_compute in H; injection H as <- _; reflexivity).
  apply (signup_then_login sampleServices None _ noAccounts a' 0
           sample_save_find sample_hash_compare).
  - intros [userId email] key. eexists. reflexivity.
  - exact H.
Defined.

(** X17.  A token that [login] has issued, presented in a header as the
    word Bearer, a space and the token, passes [authenticateToken], which
    then hands on the number and the email of the user, provided the token
    contains no space and [jwt.verify] accepts, with the same key and at
    the time of the request, what [jwt.sign] has signed.  Both read the
    key from the same variable, with the same default. *)
Theorem login_token_passes {Db} (svc : Services Db) JWT_SECRET body t db
  message token userEmail t' :
  (forall payload tok,
      jwt_sign svc payload (secretKey JWT_SECRET) t = Normal tok ->
      jwt_verify svc tok (secretKey JWT_SECRET) t' = Some payload) ->
  login svc JWT_SECRET body t db
  = {| authStatus := 200; authBody := LoginOk message token userEmail |} ->
  32 ∉ token ->
  exists userId,
    authenticateToken svc JWT_SECRET (Some (str "Bearer " ++ token)) t'
    = Next (tokenPayload userId userEmail).
Proof.
  intros Hjwt H Hsp.
  destruct (login_ok_inv _ _ _ _ _ _ H eq_refl)
    as (email & password & user & tok & _ & _ & _ & _ & Hsign & Hr).
  injection Hr as -> -> ->. exists (User._id user).
  pose proof (authenticateToken_segment svc JWT_SECRET (str "Bearer") tok []
                t') as Hseg.
  rewrite app_nil_r in Hseg.
  change (str "Bearer " ++ tok) with (str "Bearer" ++ 32 :: tok).
  rewrite Hseg; [| | exact Hsp | left; reflexivity].
  - rewrite (Hjwt _ _ Hsign). reflexivity.
  - vm_compute. intros Hin. repeat (apply elem_of_cons in Hin as [Hin | Hin];
      [discriminate Hin |]). inversion Hin.
Qed.

Lemma login_token_passes_witness :
  authenticateToken sampleServices None
    (Some (str "Bearer " ++ 0 :: str "a@b.c")) 3599000
  = Next (tokenPayload 0 (str "a@b.c")).
Proof.
  destruct (login_token_passes sampleServices None
              (credentials (str "a@b.c") (str "secret1")) 0
              (users (snd (signup sampleServices
                             (credentials (str "a@b.c") (str "secret1"))
                             noAccounts)))
              (str "Login successful.") (0 :: str "a@b.c") (str "a@b.c") 3599000)
    as [userId Hu].
  - intros [userId email] tok H. simpl in H. injection H as <-. reflexivity.
  - vm_compute. reflexivity.
  - vm_compute. intros Hin. repeat (apply elem_of_cons in Hin as [Hin | Hin];
      [discriminate Hin |]). inversion Hin.
  - rewrite Hu. vm_compute in Hu. injection Hu as <-. reflexivity.
Defined.
